(** * SocketKit client SDK: the Rooms and Clients controllers and the
      top-level connection object, embedded over an explicit object store.

    Sources embedded here:
    - [src/unnamed/part_000]        (class RoomsController)
    - [src/src/client/controller.js] (class ClientController)
    - [src/src/index.js]            (class SocketKit)

    The two libraries the code is built on, [line-socket] (the transport,
    [LineClient]) and [event-emitter-extra] (the emitter base class), are
    not part of the repository; they are modelled by exactly the calls the
    code makes on them. *)

From stdpp Require Import base option list strings numbers.

(** ** JavaScript values *)

Module Js.

#[local] Set Warnings "-register-all".

(** The values the controllers inspect.  Numbers are the integers plus
    [NaN]; an object is its own enumerable properties in insertion order. *)
Inductive Val : Type :=
  | Undefined
  | Null
  | Bool (b : bool)
  | Num (n : Z)
  | NaN
  | Str (s : string)
  | Obj (props : list (string * Val)).

(** [ToBoolean]: what [if (!x)] tests. *)
Definition truthy (v : Val) : bool :=
  match v with
  | Undefined | Null | NaN => false
  | Bool b => b
  | Num n => negb (n =? 0)%Z
  | Str s => negb (String.eqb s "")
  | Obj _ => true
  end.

(** Own-property lookup in an object literal's property list. *)
Fixpoint lookup_prop (k : string) (props : list (string * Val)) : option Val :=
  match props with
  | [] => None
  | (k', v) :: rest => if String.eqb k k' then Some v else lookup_prop k rest
  end.

(** What an engine throws.  Only [TypeError] arises in this code: reading
    or destructuring a property of [undefined] or [null]. *)
Inductive Error : Type := TypeError.

Inductive Completion (A : Type) : Type :=
  | Normal (a : A)
  | Throw (e : Error).
Arguments Normal {A} a.
Arguments Throw {A} e.

(** [v.k], and the property read that a destructuring pattern [{k} = v]
    performs.  None of the property names used by the controllers exists on
    the boolean, number or string prototypes, so a primitive yields
    [undefined]. *)
Definition get (v : Val) (k : string) : Completion Val :=
  match v with
  | Undefined | Null => Throw TypeError
  | Obj props => Normal (default Undefined (lookup_prop k props))
  | Bool _ | Num _ | NaN | Str _ => Normal Undefined
  end.

(** A default initialiser [x = d]: used when the value is [undefined]
    (and only then: [null] is kept). *)
Definition or_default (v d : Val) : Val :=
  match v with
  | Undefined => d
  | _ => v
  end.

(** The i-th actual argument of a call; a missing argument is [undefined]. *)
Definition arg (i : nat) (args : list Val) : Val :=
  default Undefined (args !! i).

End Js.

Import Js.

(** ** The object store

    Every object the three classes create or hold lives in one store, so
    that the [LineClient] shared by a [SocketKit], its [Rooms] and its
    [Clients] is one object and not three copies. References are indices. *)

(** The emitters of the program: each class extends [EventEmitterExtra]. *)
Inductive EmitterRef : Type :=
  | EmSocketKit
  | EmRooms (r : nat)
  | EmClients (c : nat).

(** The arrow functions the code registers on a [LineClient], as closures:
    the four of [SocketKit.bindEvents] (capturing the SocketKit instance) and
    the four of [RoomsController.bindEvents] (capturing controller [r]; each
    re-emits under one fixed public name). *)
Inductive Handler : Type :=
  | OnConnected
  | OnDisconnected
  | OnError
  | OnConnectingError
  | Forward (r : nat) (public : string).

(** A [LineClient] as this code sees it: its constructor arguments, the
    handlers registered with [on], the [send] calls received so far (event
    name and payload, oldest first), and how often [connect] and
    [disconnect] were called. *)
Record LineClient : Type := mkLineClient {
  lc_endpoint : Val;
  lc_options : Val;
  lc_handlers : list (string * Handler);
  lc_sent : list (string * Val);
  lc_connects : nat;
  lc_disconnects : nat
}.

Record RoomsController : Type := mkRooms {
  rc_client : nat;
  rc_listeners : list (string * nat)
}.

Record ClientController : Type := mkClients {
  cc_client : nat;
  cc_listeners : list (string * nat)
}.

Record SocketKit : Type := mkSocketKit {
  sk_token : Val;
  sk_accountId : Val;
  sk_endpoint : Val;
  sk_client : option nat;
  sk_isConnected : bool;
  sk_Rooms : option nat;
  sk_Clients : option nat;
  sk_listeners : list (string * nat)
}.

(** One [emit] call, and one invocation of an application listener. *)
Definition Emission : Type := EmitterRef * string * list Val.
Definition Delivery : Type := EmitterRef * nat * string * list Val.

Record World : Type := mkWorld {
  sk : SocketKit;
  lineclients : list LineClient;
  rooms : list RoomsController;
  clients : list ClientController;
  emitted : list Emission;
  delivered : list Delivery;
  console : list string
}.

Definition set_sk (f : SocketKit -> SocketKit) (w : World) : World :=
  mkWorld (f (sk w)) (lineclients w) (rooms w) (clients w)
          (emitted w) (delivered w) (console w).

Definition set_lineclients (f : list LineClient -> list LineClient) (w : World) : World :=
  mkWorld (sk w) (f (lineclients w)) (rooms w) (clients w)
          (emitted w) (delivered w) (console w).

Definition set_rooms (f : list RoomsController -> list RoomsController) (w : World) : World :=
  mkWorld (sk w) (lineclients w) (f (rooms w)) (clients w)
          (emitted w) (delivered w) (console w).

Definition set_clients (f : list ClientController -> list ClientController) (w : World) : World :=
  mkWorld (sk w) (lineclients w) (rooms w) (f (clients w))
          (emitted w) (delivered w) (console w).

Definition set_emitted (f : list Emission -> list Emission) (w : World) : World :=
  mkWorld (sk w) (lineclients w) (rooms w) (clients w)
          (f (emitted w)) (delivered w) (console w).

Definition set_delivered (f : list Delivery -> list Delivery) (w : World) : World :=
  mkWorld (sk w) (lineclients w) (rooms w) (clients w)
          (emitted w) (f (delivered w)) (console w).

Definition set_console (f : list string -> list string) (w : World) : World :=
  mkWorld (sk w) (lineclients w) (rooms w) (clients w)
          (emitted w) (delivered w) (f (console w)).

(** ** Computations: state passing with JavaScript exceptions *)

Definition M (A : Type) : Type := World -> Completion A * World.

Definition ret {A} (a : A) : M A := fun w => (Normal a, w).

Definition throw {A} (e : Error) : M A := fun w => (Throw e, w).

Definition bind {A B} (m : M A) (k : A -> M B) : M B := fun w =>
  match m w with
  | (Normal a, w') => k a w'
  | (Throw e, w') => (Throw e, w')
  end.

Notation "x <- m ;; k" := (bind m (fun x => k))
  (at level 100, m at next level, right associativity).
Notation "m ;;; k" := (bind m (fun _ => k))
  (at level 100, right associativity).

(** A pure step that may throw. *)
Definition lift {A} (c : Completion A) : M A := fun w => (c, w).

(** ** What a method hands back to its caller *)

Inductive Ret : Type :=
  | RUndefined
  | RRejected (msg : string)
  | RFuture (c n : nat)
  | RAsyncResolved (v : Ret)
  | RAsyncRejected (e : Error)
  | RDisconnect (c : nat).

(** [Promise.reject(new Error(msg))]. *)
Definition Promise_reject (msg : string) : M Ret := ret (RRejected msg).

(** An [async] method: the caller always gets a fresh promise, resolved
    with what the body returns or rejected with what it throws. *)
Definition async (body : M Ret) : M Ret := fun w =>
  match body w with
  | (Normal v, w') => (Normal (RAsyncResolved v), w')
  | (Throw e, w') => (Normal (RAsyncRejected e), w')
  end.

(** ** The emitter base class *)

Module EventEmitterExtra.

(** The listeners registered on an emitter, oldest first. *)
Definition listeners (em : EmitterRef) (w : World) : list (string * nat) :=
  match em with
  | EmSocketKit => sk_listeners (sk w)
  | EmRooms r => from_option rc_listeners [] (rooms w !! r)
  | EmClients c => from_option cc_listeners [] (clients w !! c)
  end.

(** Modelled from the spec: the base class [EventEmitterExtra] (package
    event-emitter-extra) is missing from the repository.  [on] subscribes an
    application listener [l] (an opaque callback) to a public event name. *)
Definition on (em : EmitterRef) (name : string) (l : nat) : M unit := fun w =>
  (Normal tt,
   match em with
   | EmSocketKit =>
       set_sk (fun s => mkSocketKit (sk_token s) (sk_accountId s) (sk_endpoint s)
                          (sk_client s) (sk_isConnected s) (sk_Rooms s) (sk_Clients s)
                          (sk_listeners s ++ [(name, l)])) w
   | EmRooms r =>
       set_rooms (alter (fun rc => mkRooms (rc_client rc) (rc_listeners rc ++ [(name, l)])) r) w
   | EmClients c =>
       set_clients (alter (fun cc => mkClients (cc_client cc) (cc_listeners cc ++ [(name, l)])) c) w
   end).

(** The listeners an emission under [name] reaches, in subscription order. *)
Definition targets (name : string) (ls : list (string * nat)) : list nat :=
  map snd (List.filter (fun nl => String.eqb (fst nl) name) ls).

(** Modelled from the spec: [emit] of the missing base class, with the
    publish/subscribe semantics of section 4.2: every listener subscribed to
    [name] is called once with the arguments, synchronously and in order;
    with no listener the emission does nothing and is never an error. *)
Definition emit (em : EmitterRef) (name : string) (args : list Val) : M unit := fun w =>
  (Normal tt,
   set_delivered (fun d => d ++ map (fun l => (em, l, name, args)) (targets name (listeners em w)))
     (set_emitted (fun e => e ++ [(em, name, args)]) w)).

End EventEmitterExtra.

(** ** The transport *)

Module LineClient.

(** The static table [LineClient.Event] of the missing transport package:
    the names under which it fires its lifecycle events. *)
Record Event : Type := mkEvent {
  CONNECTED : string;
  DISCONNECTED : string;
  ERROR : string;
  CONNECTING_ERROR : string
}.

(** Modelled from the spec: the transport class [LineClient] (package
    line-socket) is missing from the repository; section 6 gives its
    contract ([connect], [disconnect], [send], [on]).
    [new LineClient(endpoint, options)]. *)
Definition new (endpoint options : Val) : M nat := fun w =>
  (Normal (length (lineclients w)),
   set_lineclients (fun l => l ++ [mkLineClient endpoint options [] [] 0 0]) w).

Definition update (c : nat) (f : LineClient -> LineClient) : M unit := fun w =>
  match lineclients w !! c with
  | Some lc => (Normal tt, set_lineclients (fun l => <[c := f lc]> l) w)
  | None => (Throw TypeError, w)
  end.

(** Modelled from the spec: [client.on(name, handler)] of the missing
    transport subscribes the handler to inbound events of that name. *)
Definition on (c : nat) (name : string) (h : Handler) : M unit :=
  update c (fun lc => mkLineClient (lc_endpoint lc) (lc_options lc)
                        (lc_handlers lc ++ [(name, h)]) (lc_sent lc)
                        (lc_connects lc) (lc_disconnects lc)).

Definition record_send (ev : string) (payload : Val) (lc : LineClient) : LineClient :=
  mkLineClient (lc_endpoint lc) (lc_options lc) (lc_handlers lc)
    (lc_sent lc ++ [(ev, payload)]) (lc_connects lc) (lc_disconnects lc).

(** Modelled from the spec: [client.send(eventName, payload)] of the
    missing transport, "one request, one eventual reply or rejection": the
    call is recorded and the caller gets the future of that request,
    [RFuture c n] for the n-th request made on client [c].  A call with one
    argument has payload [undefined]. *)
Definition send (c : nat) (ev : string) (payload : Val) : M Ret := fun w =>
  match lineclients w !! c with
  | Some lc =>
      (Normal (RFuture c (length (lc_sent lc))),
       set_lineclients (fun l => <[c := record_send ev payload lc]> l) w)
  | None => (Throw TypeError, w)
  end.

(** [client.connect()] and [client.disconnect()]: fire and forget; the
    lifecycle events they lead to arrive later, as deliveries. *)
Definition connect (c : nat) : M unit :=
  update c (fun lc => mkLineClient (lc_endpoint lc) (lc_options lc) (lc_handlers lc)
                        (lc_sent lc) (S (lc_connects lc)) (lc_disconnects lc)).

Definition disconnect (c : nat) : M Ret :=
  update c (fun lc => mkLineClient (lc_endpoint lc) (lc_options lc) (lc_handlers lc)
                        (lc_sent lc) (lc_connects lc) (S (lc_disconnects lc))) ;;;
  ret (RDisconnect c).

(** The handlers a firing of [name] invokes, in registration order. *)
Definition subscribed (name : string) (hs : list (string * Handler)) : list Handler :=
  map snd (List.filter (fun nh => String.eqb (fst nh) name) hs).

End LineClient.

(** ** class RoomsController *)

Module RoomsController.

(** The static table [RoomsController.InternalEvents]. *)
Module InternalEvents.
Definition ROOM_EVENT : string := "room_event".
Definition NEW_ROOM_CREATED : string := "new_room_created".
Definition JOINED_TO_ROOM : string := "joined_to_room".
Definition ROOM_UPDATED : string := "room_updated".
Definition GET_CLIENT_ROOMS : string := "get_client_rooms".
Definition GET_MESSAGES : string := "get_messages".
Definition SEND_MESSAGE_TO_ROOM : string := "send_message_to_room".
Definition CREATE_ROOM : string := "create_room".
Definition ADD_PARTICIPANT : string := "add_participant".
Definition UPDATE_PARTICIPANT : string := "update_participant".
Definition UPDATE_ROOM : string := "update_room".
End InternalEvents.

(** The static table [RoomsController.Events]. *)
Module Events.
Definition NEW_ROOM_CREATED : string := "new_room_created".
Definition JOINED_TO_ROOM : string := "joined_to_room".
Definition ROOM_UPDATED : string := "room_updated".
Definition MESSAGE_RECEIVED : string := "message_received".
Definition CLIENT_UPDATED : string := "client_updated".
Definition ROOM_EVENT : string := "room_event".
Definition GET_ROOM_INFO : string := "get_room_info".
Definition SET_TYPING : string := "set_typing".
End Events.

(** [this.client]. *)
Definition this_client (this : nat) : M nat := fun w =>
  match rooms w !! this with
  | Some rc => (Normal (rc_client rc), w)
  | None => (Throw TypeError, w)
  end.

(** [this.client.send(ev, payload)]. *)
Definition client_send (this : nat) (ev : string) (payload : Val) : M Ret :=
  c <- this_client this ;; LineClient.send c ev payload.

Definition bindEvents (this : nat) : M unit :=
  c <- this_client this ;;
  LineClient.on c InternalEvents.ROOM_EVENT (Forward this Events.ROOM_EVENT) ;;;
  c <- this_client this ;;
  LineClient.on c InternalEvents.NEW_ROOM_CREATED (Forward this Events.NEW_ROOM_CREATED) ;;;
  c <- this_client this ;;
  LineClient.on c InternalEvents.JOINED_TO_ROOM (Forward this Events.JOINED_TO_ROOM) ;;;
  c <- this_client this ;;
  LineClient.on c InternalEvents.ROOM_UPDATED (Forward this Events.ROOM_UPDATED).

(** [new RoomsController(client)]: the new controller's reference. *)
Definition new (client : nat) : M nat := fun w =>
  let this := length (rooms w) in
  (bindEvents this ;;; ret this) (set_rooms (fun l => l ++ [mkRooms client []]) w).

(** The body of a closure registered by [bindEvents]:
    [message => this.emit(public, message.payload)]. *)
Definition forward (this : nat) (public : string) (args : list Val) : M unit :=
  payload <- lift (get (arg 0 args) "payload") ;;
  EventEmitterExtra.emit (EmRooms this) public [payload].

Definition create (this : nat) (args : list Val) : M Ret :=
  let o := or_default (arg 0 args) (Obj []) in
  title <- lift (get o "title") ;;
  isPrivate <- lift (get o "isPrivate") ;;
  allowPostsByDefault <- lift (get o "allowPostsByDefault") ;;
  properties <- lift (get o "properties") ;;
  let isPrivate := or_default isPrivate (Bool false) in
  let allowPostsByDefault := or_default allowPostsByDefault (Bool true) in
  let properties := or_default properties (Obj []) in
  if negb (truthy title) then Promise_reject "title is required" else
  client_send this InternalEvents.CREATE_ROOM
    (Obj [("title", title); ("private", isPrivate);
          ("allowPostsByDefault", allowPostsByDefault); ("properties", properties)]).

(** The second parameter is the pattern [{text, properties = {} = {}}]: it
    has no default of its own (the inner [{} = {}] is the default of
    [properties] and evaluates to an empty object), so the pattern is
    matched against the argument as passed, before the body runs. *)
Definition sendMessageById (this : nat) (args : list Val) : M Ret :=
  let roomId := arg 0 args in
  let o := arg 1 args in
  text <- lift (get o "text") ;;
  properties <- lift (get o "properties") ;;
  let properties := or_default properties (Obj []) in
  if negb (truthy roomId) then Promise_reject "roomId is required" else
  if negb (truthy text) then Promise_reject "text is required" else
  client_send this InternalEvents.SEND_MESSAGE_TO_ROOM
    (Obj [("roomId", roomId); ("text", text); ("properties", properties)]).

Definition findById (this : nat) (args : list Val) : M Ret :=
  let roomId := arg 0 args in
  if negb (truthy roomId) then Promise_reject "roomId is required" else
  client_send this Events.GET_ROOM_INFO (Obj [("roomId", roomId)]).

Definition findAll (this : nat) (args : list Val) : M Ret :=
  let options := or_default (arg 0 args) (Obj []) in
  client_send this InternalEvents.GET_CLIENT_ROOMS (Obj [("pagination", options)]).

Definition getMessagesById (this : nat) (args : list Val) : M Ret :=
  let roomId := arg 0 args in
  let options := or_default (arg 1 args) (Obj []) in
  if negb (truthy roomId) then Promise_reject "roomId is required" else
  client_send this InternalEvents.GET_MESSAGES
    (Obj [("roomId", roomId); ("pagination", options)]).

Definition updateById (this : nat) (args : list Val) : M Ret :=
  let roomId := arg 0 args in
  let o := or_default (arg 1 args) (Obj []) in
  title <- lift (get o "title") ;;
  properties <- lift (get o "properties") ;;
  let properties := or_default properties (Obj []) in
  if negb (truthy roomId) then Promise_reject "roomId is required" else
  if negb (truthy title) then Promise_reject "title is required" else
  client_send this InternalEvents.UPDATE_ROOM
    (Obj [("roomId", roomId); ("title", title); ("properties", properties)]).

Definition deleteById (this : nat) (args : list Val) : M Ret :=
  ret RUndefined.

Definition addMemberById (this : nat) (args : list Val) : M Ret :=
  let roomId := arg 0 args in
  let o := or_default (arg 1 args) (Obj []) in
  targetUniqueClientKey <- lift (get o "targetUniqueClientKey") ;;
  isAllowedToPost <- lift (get o "isAllowedToPost") ;;
  properties <- lift (get o "properties") ;;
  let properties := or_default properties (Obj []) in
  if negb (truthy roomId) then Promise_reject "roomId is required" else
  if negb (truthy targetUniqueClientKey) then
    Promise_reject "targetUniqueClientKey is required" else
  client_send this InternalEvents.ADD_PARTICIPANT
    (Obj [("roomId", roomId); ("targetUniqueClientKey", targetUniqueClientKey);
          ("isAllowedToPost", isAllowedToPost); ("properties", properties)]).

Definition updateMemberById (this : nat) (args : list Val) : M Ret :=
  let roomId := arg 0 args in
  let o := or_default (arg 1 args) (Obj []) in
  targetUniqueClientKey <- lift (get o "targetUniqueClientKey") ;;
  isAllowedToPost <- lift (get o "isAllowedToPost") ;;
  properties <- lift (get o "properties") ;;
  if negb (truthy roomId) then Promise_reject "roomId is required" else
  if negb (truthy targetUniqueClientKey) then
    Promise_reject "targetUniqueClientKey is required" else
  client_send this InternalEvents.UPDATE_PARTICIPANT
    (Obj [("roomId", roomId); ("targetUniqueClientKey", targetUniqueClientKey);
          ("isAllowedToPost", isAllowedToPost); ("properties", properties)]).

Definition removeMemberById (this : nat) (args : list Val) : M Ret :=
  ret RUndefined.

End RoomsController.

(** ** class ClientController *)

Module ClientController.

(** The static table [ClientController.Events]. *)
Module Events.
Definition ADD_CLIENT : string := "add_client".
Definition UPDATE_CLIENT : string := "update_client".
Definition DELETE_CLIENT : string := "delete_client".
Definition GET_CLIENT : string := "get_client".
Definition GET_CURRENT_CLIENT : string := "get_current_client".
End Events.

Definition this_client (this : nat) : M nat := fun w =>
  match clients w !! this with
  | Some cc => (Normal (cc_client cc), w)
  | None => (Throw TypeError, w)
  end.

Definition client_send (this : nat) (ev : string) (payload : Val) : M Ret :=
  c <- this_client this ;; LineClient.send c ev payload.

(** [new ClientController(client)]. *)
Definition new (client : nat) : M nat := fun w =>
  (Normal (length (clients w)), set_clients (fun l => l ++ [mkClients client []]) w).

Definition create (this : nat) (args : list Val) : M Ret :=
  let o := or_default (arg 0 args) (Obj []) in
  uniqueClientKey <- lift (get o "uniqueClientKey") ;;
  token <- lift (get o "token") ;;
  properties <- lift (get o "properties") ;;
  if negb (truthy uniqueClientKey) then Promise_reject "uniqueClientKey is required" else
  if negb (truthy token) then Promise_reject "token is required" else
  if negb (truthy properties) then Promise_reject "properties is required" else
  client_send this Events.ADD_CLIENT
    (Obj [("uniqueClientKey", uniqueClientKey); ("token", token);
          ("properties", properties)]).

Definition upsert (this : nat) (args : list Val) : M Ret :=
  let uniqueClientKey := arg 0 args in
  let o := or_default (arg 1 args) (Obj []) in
  token <- lift (get o "token") ;;
  properties <- lift (get o "properties") ;;
  if negb (truthy uniqueClientKey) then Promise_reject "uniqueClientKey is required" else
  if negb (truthy token) then Promise_reject "token is required" else
  if negb (truthy properties) then Promise_reject "properties is required" else
  client_send this Events.ADD_CLIENT
    (Obj [("uniqueClientKey", uniqueClientKey); ("token", token);
          ("properties", properties); ("upsert", Bool true)]).

Definition update (this : nat) (args : list Val) : M Ret :=
  let uniqueClientKey := arg 0 args in
  let o := or_default (arg 1 args) (Obj []) in
  token <- lift (get o "token") ;;
  properties <- lift (get o "properties") ;;
  if negb (truthy uniqueClientKey) then Promise_reject "uniqueClientKey is required" else
  let updateData := [("uniqueClientKey", uniqueClientKey)] in
  let updateData := if truthy token then updateData ++ [("token", token)] else updateData in
  let updateData :=
    if truthy properties then updateData ++ [("properties", properties)] else updateData in
  client_send this Events.UPDATE_CLIENT (Obj updateData).

Definition delete (this : nat) (args : list Val) : M Ret :=
  let uniqueClientKey := arg 0 args in
  if negb (truthy uniqueClientKey) then Promise_reject "uniqueClientKey is required" else
  client_send this Events.DELETE_CLIENT (Obj [("uniqueClientKey", uniqueClientKey)]).

Definition findByKey (this : nat) (args : list Val) : M Ret :=
  let uniqueClientKey := arg 0 args in
  if negb (truthy uniqueClientKey) then Promise_reject "uniqueClientKey is required" else
  client_send this Events.GET_CLIENT (Obj [("uniqueClientKey", uniqueClientKey)]).

(** [async getCurrent() { return this.client.send(GET_CURRENT_CLIENT); }]:
    [send] gets one argument. *)
Definition getCurrent (this : nat) (args : list Val) : M Ret :=
  async (client_send this Events.GET_CURRENT_CLIENT Undefined).

End ClientController.

(** ** class SocketKit *)

Module SocketKit.

(** The static table [SocketKit.Event]. *)
Module Event.
Definition CONNECTED : string := "connected".
Definition DISCONNECTED : string := "disconnected".
Definition ERROR : string := "error".
Definition CONNECTING_ERROR : string := "connecting_error".
End Event.

(** [new SocketKit(options)]: the store holding just the new object. *)
Definition new (args : list Val) : Completion World :=
  let o := or_default (arg 0 args) (Obj []) in
  match get o "token", get o "accountId", get o "endpoint" with
  | Normal token, Normal accountId, Normal endpoint =>
      Normal (mkWorld
        (mkSocketKit token accountId (or_default endpoint (Str "wss://ws.socketkit.com"))
           None false None None [])
        [] [] [] [] [] [])
  | _, _, _ => Throw TypeError
  end.

Definition this_client : M nat := fun w =>
  match sk_client (sk w) with
  | Some c => (Normal c, w)
  | None => (Throw TypeError, w)
  end.

Definition set_client (c : nat) : M unit := fun w =>
  (Normal tt,
   set_sk (fun s => mkSocketKit (sk_token s) (sk_accountId s) (sk_endpoint s)
                      (Some c) (sk_isConnected s) (sk_Rooms s) (sk_Clients s)
                      (sk_listeners s)) w).

Definition set_isConnected (b : bool) : M unit := fun w =>
  (Normal tt,
   set_sk (fun s => mkSocketKit (sk_token s) (sk_accountId s) (sk_endpoint s)
                      (sk_client s) b (sk_Rooms s) (sk_Clients s)
                      (sk_listeners s)) w).

Definition set_Rooms (r : nat) : M unit := fun w =>
  (Normal tt,
   set_sk (fun s => mkSocketKit (sk_token s) (sk_accountId s) (sk_endpoint s)
                      (sk_client s) (sk_isConnected s) (Some r) (sk_Clients s)
                      (sk_listeners s)) w).

Definition set_Clients (c : nat) : M unit := fun w =>
  (Normal tt,
   set_sk (fun s => mkSocketKit (sk_token s) (sk_accountId s) (sk_endpoint s)
                      (sk_client s) (sk_isConnected s) (sk_Rooms s) (Some c)
                      (sk_listeners s)) w).

(** [console.warn(msg)]. *)
Definition console_warn (msg : string) : M unit := fun w =>
  (Normal tt, set_console (fun l => l ++ [msg]) w).

Section WithLineClientEvent.

Variable E : LineClient.Event.

Definition bindEvents : M unit :=
  c <- this_client ;; LineClient.on c (LineClient.CONNECTED E) OnConnected ;;;
  c <- this_client ;; LineClient.on c (LineClient.DISCONNECTED E) OnDisconnected ;;;
  c <- this_client ;; LineClient.on c (LineClient.ERROR E) OnError ;;;
  c <- this_client ;; LineClient.on c (LineClient.CONNECTING_ERROR E) OnConnectingError.

Definition connect : M Ret := fun w =>
  if sk_isConnected (sk w) then
    (console_warn "Client is already connected" ;;; ret RUndefined) w
  else
    (let payload := Obj [("accountId", sk_accountId (sk w)); ("token", sk_token (sk w))] in
     c <- LineClient.new (sk_endpoint (sk w)) (Obj [("handshake", Obj [("payload", payload)])]) ;;
     set_client c ;;;
     bindEvents ;;;
     c <- this_client ;; LineClient.connect c ;;;
     c <- this_client ;; r <- RoomsController.new c ;; set_Rooms r ;;;
     c <- this_client ;; k <- ClientController.new c ;; set_Clients k ;;;
     ret RUndefined) w.

End WithLineClientEvent.

Definition disconnect : M Ret := fun w =>
  if sk_isConnected (sk w) then
    (c <- this_client ;; LineClient.disconnect c) w
  else (Normal RUndefined, w).

(** The bodies of the closures registered by [bindEvents]. *)
Definition onConnected (args : list Val) : M unit :=
  set_isConnected true ;;;
  EventEmitterExtra.emit EmSocketKit Event.CONNECTED [].

Definition onDisconnected (args : list Val) : M unit :=
  set_isConnected false ;;;
  EventEmitterExtra.emit EmSocketKit Event.DISCONNECTED
    [Obj [("code", arg 0 args); ("reason", arg 1 args)]].

Definition onError (args : list Val) : M unit :=
  EventEmitterExtra.emit EmSocketKit Event.ERROR [arg 0 args].

Definition onConnectingError (args : list Val) : M unit :=
  EventEmitterExtra.emit EmSocketKit Event.CONNECTING_ERROR [arg 0 args].

(** [getClient() { return this.client; }]: [null] before the first
    [connect]. *)
Definition getClient : M (option nat) := fun w => (Normal (sk_client (sk w)), w).

End SocketKit.

(** ** Running the program: inbound events and calls *)

(** A registered closure applied to the arguments of an event. *)
Definition run_handler (h : Handler) (args : list Val) : M unit :=
  match h with
  | OnConnected => SocketKit.onConnected args
  | OnDisconnected => SocketKit.onDisconnected args
  | OnError => SocketKit.onError args
  | OnConnectingError => SocketKit.onConnectingError args
  | Forward r public => RoomsController.forward r public args
  end.

Fixpoint run_handlers (hs : list Handler) (args : list Val) : M unit :=
  match hs with
  | [] => ret tt
  | h :: rest => run_handler h args ;;; run_handlers rest args
  end.

(** The transport [c] fires the event [name] with [args]: the handlers
    registered under that name run in registration order, up to the first
    one that throws.  A reference to no client fires nothing. *)
Definition fire (c : nat) (name : string) (args : list Val) : M unit := fun w =>
  match lineclients w !! c with
  | Some lc => run_handlers (LineClient.subscribed name (lc_handlers lc)) args w
  | None => (Normal tt, w)
  end.

(** The methods of the two controllers. *)
Inductive Method : Type :=
  | Rooms_create
  | Rooms_sendMessageById
  | Rooms_findById
  | Rooms_findAll
  | Rooms_getMessagesById
  | Rooms_updateById
  | Rooms_deleteById
  | Rooms_addMemberById
  | Rooms_updateMemberById
  | Rooms_removeMemberById
  | Clients_create
  | Clients_upsert
  | Clients_update
  | Clients_delete
  | Clients_findByKey
  | Clients_getCurrent.

(** [controller.method(...args)] on the controller with reference [this]. *)
Definition call (m : Method) (this : nat) (args : list Val) : M Ret :=
  match m with
  | Rooms_create => RoomsController.create this args
  | Rooms_sendMessageById => RoomsController.sendMessageById this args
  | Rooms_findById => RoomsController.findById this args
  | Rooms_findAll => RoomsController.findAll this args
  | Rooms_getMessagesById => RoomsController.getMessagesById this args
  | Rooms_updateById => RoomsController.updateById this args
  | Rooms_deleteById => RoomsController.deleteById this args
  | Rooms_addMemberById => RoomsController.addMemberById this args
  | Rooms_updateMemberById => RoomsController.updateMemberById this args
  | Rooms_removeMemberById => RoomsController.removeMemberById this args
  | Clients_create => ClientController.create this args
  | Clients_upsert => ClientController.upsert this args
  | Clients_update => ClientController.update this args
  | Clients_delete => ClientController.delete this args
  | Clients_findByKey => ClientController.findByKey this args
  | Clients_getCurrent => ClientController.getCurrent this args
  end.

(** The [LineClient] a controller method sends on. *)
Definition is_rooms (m : Method) : bool :=
  match m with
  | Clients_create | Clients_upsert | Clients_update | Clients_delete
  | Clients_findByKey | Clients_getCurrent => false
  | _ => true
  end.

Definition transport_of (m : Method) (this : nat) (w : World) : option nat :=
  if is_rooms m then rc_client <$> rooms w !! this
  else cc_client <$> clients w !! this.

(** The store after one more request on client [c], whose state was [lc]. *)
Definition after_send (c : nat) (ev : string) (payload : Val) (lc : LineClient)
    (w : World) : World :=
  set_lineclients (fun l => <[c := LineClient.record_send ev payload lc]> l) w.

(** What can happen to a running program: the application calls
    [connect], [disconnect] or a controller method, subscribes a listener,
    builds a controller of its own on a transport, or a transport fires an
    event. *)
Inductive Action : Type :=
  | Connect
  | Disconnect
  | Call (m : Method) (this : nat) (args : list Val)
  | Listen (em : EmitterRef) (name : string) (l : nat)
  | NewRooms (c : nat)
  | NewClients (c : nat)
  | Fire (c : nat) (name : string) (args : list Val).

Definition step (E : LineClient.Event) (a : Action) (w : World) : World :=
  match a with
  | Connect => snd (SocketKit.connect E w)
  | Disconnect => snd (SocketKit.disconnect w)
  | Call m this args => snd (call m this args w)
  | Listen em name l => snd (EventEmitterExtra.on em name l w)
  | NewRooms c => snd (RoomsController.new c w)
  | NewClients c => snd (ClientController.new c w)
  | Fire c name args => snd (fire c name args w)
  end.

Definition run (E : LineClient.Event) (trace : list Action) (w : World) : World :=
  foldl (fun w a => step E a w) w trace.

(** ** The vocabulary of the specification *)

(** A field of a method's input: a positional argument, or a property of
    the options object passed at a position. *)
Inductive Field : Type :=
  | Positional (i : nat) (name : string)
  | InOptions (i : nat) (name : string).

Definition field_name (f : Field) : string :=
  match f with
  | Positional _ n | InOptions _ n => n
  end.

(** The value a call supplies for a field; [undefined] when it supplies
    none. *)
Definition field_value (args : list Val) (f : Field) : Val :=
  match f with
  | Positional i _ => arg i args
  | InOptions i n =>
      match arg i args with
      | Obj props => default Undefined (lookup_prop n props)
      | _ => Undefined
      end
  end.

(** The required fields of each method, in declaration order (spec
    sections 4.1 and 8). *)
Definition required (m : Method) : list Field :=
  match m with
  | Rooms_create => [InOptions 0 "title"]
  | Rooms_sendMessageById => [Positional 0 "roomId"; InOptions 1 "text"]
  | Rooms_findById => [Positional 0 "roomId"]
  | Rooms_getMessagesById => [Positional 0 "roomId"]
  | Rooms_updateById => [Positional 0 "roomId"; InOptions 1 "title"]
  | Rooms_addMemberById => [Positional 0 "roomId"; InOptions 1 "targetUniqueClientKey"]
  | Rooms_updateMemberById => [Positional 0 "roomId"; InOptions 1 "targetUniqueClientKey"]
  | Clients_create =>
      [InOptions 0 "uniqueClientKey"; InOptions 0 "token"; InOptions 0 "properties"]
  | Clients_upsert =>
      [Positional 0 "uniqueClientKey"; InOptions 1 "token"; InOptions 1 "properties"]
  | Clients_update => [Positional 0 "uniqueClientKey"]
  | Clients_delete => [Positional 0 "uniqueClientKey"]
  | Clients_findByKey => [Positional 0 "uniqueClientKey"]
  | Rooms_findAll | Rooms_deleteById | Rooms_removeMemberById | Clients_getCurrent => []
  end.

(** The first required field whose value fails the presence test. *)
Definition first_missing (m : Method) (args : list Val) : option Field :=
  List.find (fun f => negb (truthy (field_value args f))) (required m).

(** The position of the options object in a method's parameter list. *)
Definition options_index (m : Method) : option nat :=
  match m with
  | Rooms_create | Clients_create => Some 0
  | Rooms_sendMessageById | Rooms_updateById | Rooms_addMemberById
  | Rooms_updateMemberById | Clients_upsert | Clients_update => Some 1
  | _ => None
  end.

(** The two placeholder methods. *)
Definition is_placeholder (m : Method) : bool :=
  match m with
  | Rooms_deleteById | Rooms_removeMemberById => true
  | _ => false
  end.

(** The internal (wire-facing) event identifiers of spec section 6. *)
Definition internal_room_events : list string :=
  ["room_event"; "new_room_created"; "joined_to_room"; "room_updated";
   "get_client_rooms"; "get_messages"; "send_message_to_room"; "create_room";
   "add_participant"; "update_participant"; "update_room"].

Definition internal_client_events : list string :=
  ["add_client"; "update_client"; "delete_client"; "get_client"; "get_current_client"].

(** The internal events the Rooms router subscribes to. *)
Definition routed_events : list string :=
  ["room_event"; "new_room_created"; "joined_to_room"; "room_updated"].

(** A sample of the transport's event table and the store of a freshly
    connected SocketKit, for running the model on concrete inputs. *)
Definition sampleEvent : LineClient.Event :=
  LineClient.mkEvent "_connected" "_disconnected" "_error" "_connecting_error".

Definition fresh : World :=
  mkWorld
    (mkSocketKit (Str "abc") (Num 1) (Str "wss://ws.socketkit.com") None false None None [])
    [] [] [] [] [] [].

Definition connected : World := run sampleEvent [Connect; Fire 0 "_connected" []] fresh.

(** The transport of [connected], and its two controllers. *)
Definition connectedClient : LineClient :=
  mkLineClient (Str "wss://ws.socketkit.com")
    (Obj [("handshake",
           Obj [("payload", Obj [("accountId", Num 1); ("token", Str "abc")])])])
    [("_connected", OnConnected); ("_disconnected", OnDisconnected);
     ("_error", OnError); ("_connecting_error", OnConnectingError);
     ("room_event", Forward 0 "room_event");
     ("new_room_created", Forward 0 "new_room_created");
     ("joined_to_room", Forward 0 "joined_to_room");
     ("room_updated", Forward 0 "room_updated")] [] 1 0.

Definition connectedRooms : RoomsController := mkRooms 0 [].

Definition connectedClients : ClientController := mkClients 0 [].

(** How a method can fail loudly: by throwing, or by handing back a
    rejected promise. *)
Definition fails_loudly (o : Completion Ret) : bool :=
  match o with
  | Throw _ => true
  | Normal (RRejected _) => true
  | Normal (RAsyncRejected _) => true
  | Normal _ => false
  end.

(** Whether the options pattern in a method's parameter list accepts the
    argument passed: [null] never matches a pattern; [undefined] matches
    where the parameter has the default [= {}], which all have but the
    second parameter of [Rooms.sendMessageById]. *)
Definition options_bind (m : Method) (args : list Val) : bool :=
  match options_index m with
  | None => true
  | Some i =>
      match arg i args with
      | Null => false
      | Undefined =>
          match m with
          | Rooms_sendMessageById => false
          | _ => true
          end
      | _ => true
      end
  end.

(** The message of a validation error. *)
Definition is_required (f : Field) : string := field_name f +:+ " is required".

(** The handlers [RoomsController.bindEvents] registers for controller
    [r], in order. *)
Definition router_handlers (r : nat) : list (string * Handler) :=
  [("room_event", Forward r "room_event");
   ("new_room_created", Forward r "new_room_created");
   ("joined_to_room", Forward r "joined_to_room");
   ("room_updated", Forward r "room_updated")].

(** The handlers on a transport belong to controllers that exist: every
    [Forward r] has [r] below the number [n] of controllers built. *)
Definition handlers_within (n : nat) (hs : list (string * Handler)) : bool :=
  forallb (fun nh => match snd nh with
                     | Forward r _ => r <? n
                     | _ => true
                     end) hs.

Definition emitter_eqb (a b : EmitterRef) : bool :=
  match a, b with
  | EmSocketKit, EmSocketKit => true
  | EmRooms r, EmRooms r' => r =? r'
  | EmClients c, EmClients c' => c =? c'
  | _, _ => false
  end.

(** The emissions made by one emitter, and the listener calls it made. *)
Definition emissions_of (em : EmitterRef) (es : list Emission) : list Emission :=
  List.filter (fun e => emitter_eqb (fst (fst e)) em) es.

Definition deliveries_of (em : EmitterRef) (ds : list Delivery) : list Delivery :=
  List.filter (fun d => emitter_eqb (fst (fst (fst d))) em) ds.

(** A step of the store that controller [r]'s emitter takes no part in:
    controllers and transports are as before, and [r] has emitted nothing
    and called no listener. *)
Definition quiet (r : nat) (w w' : World) : Prop :=
  rooms w' = rooms w
  /\ lineclients w' = lineclients w
  /\ emissions_of (EmRooms r) (emitted w') = emissions_of (EmRooms r) (emitted w)
  /\ deliveries_of (EmRooms r) (delivered w') = deliveries_of (EmRooms r) (delivered w).

(** The handlers [SocketKit.bindEvents] registers, in order. *)
Definition lifecycle_handlers (E : LineClient.Event) : list (string * Handler) :=
  [(LineClient.CONNECTED E, OnConnected);
   (LineClient.DISCONNECTED E, OnDisconnected);
   (LineClient.ERROR E, OnError);
   (LineClient.CONNECTING_ERROR E, OnConnectingError)].

Definition is_forward (h : Handler) : bool :=
  match h with
  | Forward _ _ => true
  | _ => false
  end.

(** A transport wired by [connect]: the four lifecycle handlers first, and
    after them only router handlers. *)
Definition wired (E : LineClient.Event) (hs : list (string * Handler)) : Prop :=
  exists rest, hs = lifecycle_handlers E ++ rest
               /\ Forall (fun nh => is_forward (snd nh) = true) rest.

(** The handler lists of the transports in the store. *)
Definition wiring (w : World) : list (list (string * Handler)) :=
  lc_handlers <$> lineclients w.

(** What a lifecycle event says about the connection. *)
Definition lifecycle (E : LineClient.Event) (name : string) : option bool :=
  if String.eqb (LineClient.CONNECTED E) name then Some true
  else if String.eqb (LineClient.DISCONNECTED E) name then Some false
  else None.

(** The connection state announced by the last lifecycle event a transport
    of the store fired along a trace, [last] if there was none. *)
Fixpoint last_lifecycle (E : LineClient.Event) (trace : list Action) (w : World)
    (last : bool) : bool :=
  match trace with
  | [] => last
  | a :: rest =>
      last_lifecycle E rest (step E a w)
        match a with
        | Fire c name _ =>
            match lineclients w !! c with
            | Some _ => default last (lifecycle E name)
            | None => last
            end
        | _ => last
        end
  end.

(** The promise whose outcome a returned value ends up with: a promise
    resolved with another promise adopts that one's outcome. *)
Fixpoint settles_as (r : Ret) : Ret :=
  match r with
  | RAsyncResolved v => settles_as v
  | _ => r
  end.

(** Whether a call handed back a promise that settles as a request's
    future. *)
Definition hands_back_future (o : Completion Ret) : bool :=
  match o with
  | Normal r =>
      match settles_as r with
      | RFuture _ _ => true
      | _ => false
      end
  | Throw _ => false
  end.




(** The SocketKit object and its controllers agree on the transport:
    before the first [connect] there is no transport and no controller;
    afterwards [this.client] is a transport of the store and [this.Rooms]
    and [this.Clients] are controllers holding that same transport. *)
Definition coherent (w : World) : Prop :=
  match sk_client (sk w) with
  | None =>
      lineclients w = [] /\ sk_isConnected (sk w) = false
      /\ sk_Rooms (sk w) = None /\ sk_Clients (sk w) = None
  | Some c =>
      c < length (lineclients w)
      /\ exists r k,
           sk_Rooms (sk w) = Some r /\ sk_Clients (sk w) = Some k
           /\ rc_client <$> rooms w !! r = Some c
           /\ cc_client <$> clients w !! k = Some c
  end.

(** The store after [client.disconnect()] on transport [c], whose state
    was [lc]. *)
Definition after_disconnect (c : nat) (lc : LineClient) (w : World) : World :=
  set_lineclients
    (fun l => <[c := mkLineClient (lc_endpoint lc) (lc_options lc) (lc_handlers lc)
                       (lc_sent lc) (lc_connects lc) (S (lc_disconnects lc))]> l) w.

(** The transport [connect] builds for a SocketKit object. *)
Definition handshake_client (E : LineClient.Event) (s : SocketKit) (r : nat) : LineClient :=
  mkLineClient (sk_endpoint s)
    (Obj [("handshake",
           Obj [("payload", Obj [("accountId", sk_accountId s); ("token", sk_token s)])])])
    (lifecycle_handlers E ++ router_handlers r) [] 1 0.

(** A transport as [connect] leaves it: asked to connect once, never to
    disconnect, and with no request made yet. *)
Definition just_connecting (lc : LineClient) : Prop :=
  lc_connects lc = 1 /\ lc_disconnects lc = 0 /\ lc_sent lc = [].

(** A router handler as [RoomsController.bindEvents] registers it: under
    one of the routed names, re-emitting under that same name. *)
Definition routed_pair (nh : string * Handler) : Prop :=
  exists r, snd nh = Forward r (fst nh) /\ In (fst nh) routed_events.

(** A transport wired by this code only: the lifecycle handlers of
    [SocketKit.bindEvents], then router handlers. *)
Definition well_wired (E : LineClient.Event) (hs : list (string * Handler)) : Prop :=
  exists rest, hs = lifecycle_handlers E ++ rest /\ Forall routed_pair rest.

(** The public names of [SocketKit.Event]. *)
Definition connection_events : list string :=
  ["connected"; "disconnected"; "error"; "connecting_error"].

(** The emissions this code can make: the SocketKit object under one of
    its four event names, a Rooms controller under a routed name with one
    argument. *)
Definition emission_ok (e : Emission) : Prop :=
  match e with
  | (EmSocketKit, name, _) => In name connection_events
  | (EmRooms _, name, args) => In name routed_events /\ length args = 1
  | (EmClients _, _, _) => False
  end.

Definition handler_ok (h : Handler) : Prop :=
  match h with
  | Forward _ public => In public routed_events
  | _ => True
  end.

(** Firing [name] with [fargs] on transport [c] makes the SocketKit
    object emit once more, [public] with [payload], to each listener
    subscribed to [public]. *)
Definition reemits (c : nat) (name : string) (fargs : list Val) (w : World)
    (public : string) (payload : list Val) : Prop :=
  emissions_of EmSocketKit (emitted (snd (fire c name fargs w))) =
    emissions_of EmSocketKit (emitted w) ++ [(EmSocketKit, public, payload)]
  /\ deliveries_of EmSocketKit (delivered (snd (fire c name fargs w))) =
       deliveries_of EmSocketKit (delivered w) ++
       map (fun l : nat => (EmSocketKit, l, public, payload))
         (EventEmitterExtra.targets public (sk_listeners (sk w))).

(** Handlers that are none of controller [r]'s. *)
Definition foreign (r : nat) (hs : list (string * Handler)) : Prop :=
  Forall (fun nh : string * Handler =>
            match snd nh with
            | Forward r' _ => r' <> r
            | _ => True
            end) hs.

(** Controller [r] is subscribed on transport [c]: the controller exists,
    and the handlers of [c] hold the four router handlers of [r], once. *)
Definition routes (r c : nat) (w : World) : Prop :=
  r < length (rooms w)
  /\ exists lc hs1 hs2,
       lineclients w !! c = Some lc
       /\ lc_handlers lc = hs1 ++ router_handlers r ++ hs2
       /\ foreign r hs1 /\ foreign r hs2.

(** Every router handler on a transport of the store belongs to a
    controller of the store. *)
Definition bounded (w : World) : Prop :=
  Forall (fun hs => handlers_within (length (rooms w)) hs = true) (wiring w).

(** Transport [c] firing [n] with the envelope [{payload: p, ...rest}] in
    store [w] fails nowhere and makes controller [r] emit exactly once
    more: [n] with [p], to each of its listeners subscribed to [n], in
    subscription order. *)
Definition delivers (r c : nat) (n : string) (p : Val) (rest : list (string * Val))
    (more : list Val) (w : World) : Prop :=
  exists w',
    fire c n (Obj (("payload", p) :: rest) :: more) w = (Normal tt, w')
    /\ emissions_of (EmRooms r) (emitted w') =
         emissions_of (EmRooms r) (emitted w) ++ [(EmRooms r, n, [p])]
    /\ deliveries_of (EmRooms r) (delivered w') =
         deliveries_of (EmRooms r) (delivered w) ++
         map (fun l : nat => (EmRooms r, l, n, [p]))
           (EventEmitterExtra.targets n (EventEmitterExtra.listeners (EmRooms r) w)).

(** * Properties *)

(** ** Sending on a controller's transport *)

Lemma rooms_client_send_ok this rc lc ev p w :
  rooms w !! this = Some rc ->
  lineclients w !! rc_client rc = Some lc ->
  RoomsController.client_send this ev p w =
    (Normal (RFuture (rc_client rc) (length (lc_sent lc))),
     after_send (rc_client rc) ev p lc w).
Proof.
  intros Hr Hc.
  unfold RoomsController.client_send, bind, RoomsController.this_client, LineClient.send.
  rewrite Hr. simpl. rewrite Hc. reflexivity.
Qed.

Lemma clients_client_send_ok this cc lc ev p w :
  clients w !! this = Some cc ->
  lineclients w !! cc_client cc = Some lc ->
  ClientController.client_send this ev p w =
    (Normal (RFuture (cc_client cc) (length (lc_sent lc))),
     after_send (cc_client cc) ev p lc w).
Proof.
  intros Hr Hc.
  unfold ClientController.client_send, bind, ClientController.this_client, LineClient.send.
  rewrite Hr. simpl. rewrite Hc. reflexivity.
Qed.

(** Unfolds the monadic plumbing of a method body. *)
Ltac unfold_body :=
  unfold bind, lift, ret, Promise_reject, or_default, arg; simpl.

(** C3: [Rooms.create] called with only a (present) title sends, on
    [create_room], exactly the payload
    [{title, private: false, allowPostsByDefault: true, properties: {}}]. *)
Theorem create_applies_defaults this rc lc w (t : Val) :
  truthy t = true ->
  rooms w !! this = Some rc ->
  lineclients w !! rc_client rc = Some lc ->
  RoomsController.create this [Obj [("title", t)]] w =
    (Normal (RFuture (rc_client rc) (length (lc_sent lc))),
     after_send (rc_client rc) "create_room"
       (Obj [("title", t); ("private", Bool false);
             ("allowPostsByDefault", Bool true); ("properties", Obj [])]) lc w).
Proof.
  intros Ht Hr Hc.
  unfold RoomsController.create. unfold_body. rewrite Ht. simpl.
  apply rooms_client_send_ok; assumption.
Qed.

Lemma create_applies_defaults_witness :
  RoomsController.create 0 [Obj [("title", Str "T")]] connected =
    (Normal (RFuture 0 0),
     after_send 0 "create_room"
       (Obj [("title", Str "T"); ("private", Bool false);
             ("allowPostsByDefault", Bool true); ("properties", Obj [])])
       connectedClient connected).
Proof.
  apply (create_applies_defaults 0 connectedRooms connectedClient connected (Str "T"));
    reflexivity.
Defined.

(** C4: [Clients.upsert(k, {token, properties})] sends, on [add_client],
    the payload [{uniqueClientKey, token, properties, upsert: true}], and
    [Clients.create] with the same three values sends, on the same event,
    the same payload without the [upsert] key.  Whatever the arguments, a
    call of [upsert] that passes validation sends [upsert: true]. *)
Theorem upsert_flag_distinguishes_create this cc lc w (k t p : Val) :
  truthy k = true -> truthy t = true -> truthy p = true ->
  clients w !! this = Some cc ->
  lineclients w !! cc_client cc = Some lc ->
  ClientController.upsert this [k; Obj [("token", t); ("properties", p)]] w =
    (Normal (RFuture (cc_client cc) (length (lc_sent lc))),
     after_send (cc_client cc) "add_client"
       (Obj [("uniqueClientKey", k); ("token", t); ("properties", p);
             ("upsert", Bool true)]) lc w)
  /\ ClientController.create this
       [Obj [("uniqueClientKey", k); ("token", t); ("properties", p)]] w =
    (Normal (RFuture (cc_client cc) (length (lc_sent lc))),
     after_send (cc_client cc) "add_client"
       (Obj [("uniqueClientKey", k); ("token", t); ("properties", p)]) lc w)
  /\ (forall args,
        first_missing Clients_upsert args = None ->
        ClientController.upsert this args w =
          (Normal (RFuture (cc_client cc) (length (lc_sent lc))),
           after_send (cc_client cc) "add_client"
             (Obj [("uniqueClientKey", arg 0 args);
                   ("token", field_value args (InOptions 1 "token"));
                   ("properties", field_value args (InOptions 1 "properties"));
                   ("upsert", Bool true)]) lc w)).
Proof.
  intros Hk Ht Hp Hcc Hlc. split; [|split].
  - unfold ClientController.upsert. unfold_body. rewrite Hk, Ht, Hp. simpl.
    apply clients_client_send_ok; assumption.
  - unfold ClientController.create. unfold_body. rewrite Hk, Ht, Hp. simpl.
    apply clients_client_send_ok; assumption.
  - intros args Hf. unfold first_missing in Hf. simpl in Hf.
    unfold ClientController.upsert, bind, lift, or_default, field_value.
    set (a0 := arg 0 args) in *. set (a1 := arg 1 args) in *. clearbody a0 a1.
    destruct (truthy a0); simpl in Hf; [|discriminate].
    destruct a1; simpl in *; try discriminate.
    destruct (truthy (default Undefined (lookup_prop "token" props)));
      simpl in *; [|discriminate].
    destruct (truthy (default Undefined (lookup_prop "properties" props)));
      simpl in *; [|discriminate].
    apply clients_client_send_ok; assumption.
Qed.

Lemma upsert_flag_distinguishes_create_witness :
  ClientController.upsert 0 [Str "k"; Obj [("token", Str "t"); ("properties", Obj [])]]
      connected =
    (Normal (RFuture 0 0),
     after_send 0 "add_client"
       (Obj [("uniqueClientKey", Str "k"); ("token", Str "t"); ("properties", Obj []);
             ("upsert", Bool true)]) connectedClient connected)
  /\ ClientController.create 0
       [Obj [("uniqueClientKey", Str "k"); ("token", Str "t"); ("properties", Obj [])]]
       connected =
    (Normal (RFuture 0 0),
     after_send 0 "add_client"
       (Obj [("uniqueClientKey", Str "k"); ("token", Str "t"); ("properties", Obj [])])
       connectedClient connected).
Proof.
  destruct (upsert_flag_distinguishes_create 0 connectedClients connectedClient connected
              (Str "k") (Str "t") (Obj [])) as (Hupsert & Hcreate & _);
    try reflexivity.
  split; [exact Hupsert | exact Hcreate].
Defined.

(** C9: [Rooms.updateById] rejects when the title is absent and defaults
    absent properties to [{}]; [Rooms.updateMemberById] sends its properties
    as passed, absent ones as [undefined]; [Rooms.addMemberById] defaults
    absent properties to [{}]. *)
Theorem properties_default_differs this rc lc w (r t k a : Val) :
  truthy r = true -> truthy t = true -> truthy k = true ->
  rooms w !! this = Some rc ->
  lineclients w !! rc_client rc = Some lc ->
  RoomsController.updateById this [r] w = (Normal (RRejected "title is required"), w)
  /\ RoomsController.updateById this [r; Obj []] w =
       (Normal (RRejected "title is required"), w)
  /\ RoomsController.updateById this [r; Obj [("title", t)]] w =
       (Normal (RFuture (rc_client rc) (length (lc_sent lc))),
        after_send (rc_client rc) "update_room"
          (Obj [("roomId", r); ("title", t); ("properties", Obj [])]) lc w)
  /\ RoomsController.updateMemberById this
        [r; Obj [("targetUniqueClientKey", k); ("isAllowedToPost", a)]] w =
       (Normal (RFuture (rc_client rc) (length (lc_sent lc))),
        after_send (rc_client rc) "update_participant"
          (Obj [("roomId", r); ("targetUniqueClientKey", k); ("isAllowedToPost", a);
                ("properties", Undefined)]) lc w)
  /\ (forall p : Val,
        RoomsController.updateMemberById this
          [r; Obj [("targetUniqueClientKey", k); ("isAllowedToPost", a);
                   ("properties", p)]] w =
          (Normal (RFuture (rc_client rc) (length (lc_sent lc))),
           after_send (rc_client rc) "update_participant"
             (Obj [("roomId", r); ("targetUniqueClientKey", k); ("isAllowedToPost", a);
                   ("properties", p)]) lc w))
  /\ RoomsController.addMemberById this
        [r; Obj [("targetUniqueClientKey", k); ("isAllowedToPost", a)]] w =
       (Normal (RFuture (rc_client rc) (length (lc_sent lc))),
        after_send (rc_client rc) "add_participant"
          (Obj [("roomId", r); ("targetUniqueClientKey", k); ("isAllowedToPost", a);
                ("properties", Obj [])]) lc w).
Proof.
  intros Hr Ht Hk Hrc Hlc. repeat split; try intros p.
  6: { unfold RoomsController.addMemberById. unfold_body. rewrite Hr, Hk. simpl.
       apply rooms_client_send_ok; assumption. }
  5: { unfold RoomsController.updateMemberById. unfold_body. rewrite Hr, Hk. simpl.
       apply rooms_client_send_ok; assumption. }
  - unfold RoomsController.updateById. unfold_body. rewrite Hr. reflexivity.
  - unfold RoomsController.updateById. unfold_body. rewrite Hr. reflexivity.
  - unfold RoomsController.updateById. unfold_body. rewrite Hr, Ht. simpl.
    apply rooms_client_send_ok; assumption.
  - unfold RoomsController.updateMemberById. unfold_body. rewrite Hr, Hk. simpl.
    apply rooms_client_send_ok; assumption.
Qed.

Lemma properties_default_differs_witness :
  RoomsController.updateById 0 [Num 1] connected =
    (Normal (RRejected "title is required"), connected)
  /\ RoomsController.updateById 0 [Num 1; Obj []] connected =
       (Normal (RRejected "title is required"), connected)
  /\ RoomsController.updateById 0 [Num 1; Obj [("title", Str "Edited title")]] connected =
       (Normal (RFuture 0 0),
        after_send 0 "update_room"
          (Obj [("roomId", Num 1); ("title", Str "Edited title"); ("properties", Obj [])])
          connectedClient connected)
  /\ RoomsController.updateMemberById 0
        [Num 1; Obj [("targetUniqueClientKey", Num 15); ("isAllowedToPost", Bool true)]]
        connected =
       (Normal (RFuture 0 0),
        after_send 0 "update_participant"
          (Obj [("roomId", Num 1); ("targetUniqueClientKey", Num 15);
                ("isAllowedToPost", Bool true); ("properties", Undefined)])
          connectedClient connected)
  /\ (forall p : Val,
        RoomsController.updateMemberById 0
          [Num 1; Obj [("targetUniqueClientKey", Num 15); ("isAllowedToPost", Bool true);
                       ("properties", p)]] connected =
          (Normal (RFuture 0 0),
           after_send 0 "update_participant"
             (Obj [("roomId", Num 1); ("targetUniqueClientKey", Num 15);
                   ("isAllowedToPost", Bool true); ("properties", p)])
             connectedClient connected))
  /\ RoomsController.addMemberById 0
        [Num 1; Obj [("targetUniqueClientKey", Num 15); ("isAllowedToPost", Bool true)]]
        connected =
       (Normal (RFuture 0 0),
        after_send 0 "add_participant"
          (Obj [("roomId", Num 1); ("targetUniqueClientKey", Num 15);
                ("isAllowedToPost", Bool true); ("properties", Obj [])])
          connectedClient connected).
Proof.
  apply (properties_default_differs 0 connectedRooms connectedClient connected
           (Num 1) (Str "Edited title") (Num 15) (Bool true)); reflexivity.
Defined.

(** C6, as the code has it: the two placeholder methods have empty bodies;
    every call returns [undefined], sends nothing and leaves the store as
    it was.  Neither raises an error. *)
Theorem placeholders_return_undefined this args w :
  RoomsController.deleteById this args w = (Normal RUndefined, w)
  /\ RoomsController.removeMemberById this args w = (Normal RUndefined, w).
Proof. split; reflexivity. Qed.

(** C6 fails on the code: a call of [deleteById] (and of
    [removeMemberById]) completes normally with [undefined]. *)
Lemma placeholders_do_not_fail :
  call Rooms_deleteById 0 [Num 1] connected = (Normal RUndefined, connected)
  /\ fails_loudly (fst (call Rooms_deleteById 0 [Num 1] connected)) = false
  /\ call Rooms_removeMemberById 0 [Num 1; Obj [("targetUniqueClientKey", Num 15)]]
        connected = (Normal RUndefined, connected)
  /\ fails_loudly
        (fst (call Rooms_removeMemberById 0
                [Num 1; Obj [("targetUniqueClientKey", Num 15)]] connected)) = false.
Proof. repeat split; reflexivity. Qed.

(** ** Validation *)

(** Names the actual arguments and splits on the shape of the options. *)
Ltac name_args args :=
  let a0 := fresh "a0" in
  let a1 := fresh "a1" in
  set (a0 := arg 0 args) in *; set (a1 := arg 1 args) in *;
  clearbody a0 a1.

Ltac open_method :=
  unfold RoomsController.create, RoomsController.sendMessageById,
    RoomsController.findById, RoomsController.findAll,
    RoomsController.getMessagesById, RoomsController.updateById,
    RoomsController.deleteById, RoomsController.addMemberById,
    RoomsController.updateMemberById, RoomsController.removeMemberById,
    ClientController.create, ClientController.upsert, ClientController.update,
    ClientController.delete, ClientController.findByKey;
  unfold bind, lift, ret, Promise_reject, or_default.

(** A parameter pattern that does not accept its argument throws, before
    any check and before any request. *)
Lemma unbound_options_throw m this args w :
  options_bind m args = false ->
  call m this args w = (Throw TypeError, w).
Proof.
  destruct m; simpl; unfold options_bind; simpl; try discriminate;
    intros H; open_method; name_args args;
    first [ destruct a0; try discriminate; reflexivity
          | destruct a1; try discriminate; reflexivity ].
Qed.

(** With the options bound, a call that leaves a required field without a
    truthy value is rejected with the message of the first such field, in
    declaration order, and the store is untouched. *)
Lemma first_missing_rejected m this args w f :
  options_bind m args = true ->
  first_missing m args = Some f ->
  call m this args w = (Normal (RRejected (is_required f)), w).
Proof.
  destruct m; simpl; unfold options_bind, first_missing; simpl; try discriminate;
    intros Hb Hf; open_method; name_args args.
  all: try match type of Hb with
         | context [match ?a with _ => _ end] => destruct a; simpl in *; try discriminate
         end.
  all: repeat match type of Hf with
         | context [truthy ?v] => destruct (truthy v) eqn:?; simpl in *
         end.
  all: try discriminate.
  all: inversion Hf; subst; reflexivity.
Qed.

(** A required field the call does not supply fails the presence test, so
    some field is reported. *)
Lemma absent_field_is_missing m args f :
  In f (required m) ->
  field_value args f = Undefined ->
  exists f', first_missing m args = Some f'.
Proof.
  intros Hin Habs. unfold first_missing.
  destruct (List.find _ (required m)) as [f'|] eqn:Hfind; [eauto|].
  pose proof (List.find_none _ _ Hfind f Hin) as Hf.
  simpl in Hf. rewrite Habs in Hf. discriminate.
Qed.

(** C1, where the code departs from it: [Rooms.sendMessageById] called
    without its options object lacks the required [text], but the call
    throws a [TypeError] while binding its parameters instead of returning
    a promise rejected with a validation error. No request is sent. *)
Theorem sendMessageById_without_options_throws this (roomId : Val) w :
  first_missing Rooms_sendMessageById [Num 1] = Some (InOptions 1 "text")
  /\ call Rooms_sendMessageById this [roomId] w = (Throw TypeError, w)
  /\ call Rooms_sendMessageById this [] w = (Throw TypeError, w).
Proof. repeat split; reflexivity. Qed.

(** Validation of every method whose options are bound: if the call
    leaves a required field out, it hands back a promise rejected with
    "<field> is required" for the first required field, in declaration
    order, that fails the presence test, and the store, the transport's
    log of requests included, is as before. *)
Theorem absent_field_rejected m this args w f :
  options_bind m args = true ->
  In f (required m) ->
  field_value args f = Undefined ->
  exists f',
    first_missing m args = Some f'
    /\ call m this args w = (Normal (RRejected (is_required f')), w).
Proof.
  intros Hb Hin Habs.
  destruct (absent_field_is_missing m args f Hin Habs) as (f' & Hf').
  exists f'. split; [exact Hf'|]. apply first_missing_rejected; assumption.
Qed.

Lemma absent_field_rejected_witness :
  exists f',
    first_missing Rooms_sendMessageById [Undefined; Obj []] = Some f'
    /\ call Rooms_sendMessageById 0 [Undefined; Obj []] connected =
         (Normal (RRejected (is_required f')), connected).
Proof.
  apply (absent_field_rejected Rooms_sendMessageById 0 [Undefined; Obj []] connected
           (InOptions 1 "text")).
  - reflexivity.
  - simpl. tauto.
  - reflexivity.
Defined.

(** ** Calls that pass validation *)

Lemma transport_of_rooms m this w c :
  is_rooms m = true -> transport_of m this w = Some c ->
  exists rc, rooms w !! this = Some rc /\ rc_client rc = c.
Proof.
  unfold transport_of. intros ->. destruct (rooms w !! this) as [rc|]; simpl; [|discriminate].
  intros [= <-]. eauto.
Qed.

Lemma transport_of_clients m this w c :
  is_rooms m = false -> transport_of m this w = Some c ->
  exists cc, clients w !! this = Some cc /\ cc_client cc = c.
Proof.
  unfold transport_of. intros ->. destruct (clients w !! this) as [cc|]; simpl; [|discriminate].
  intros [= <-]. eauto.
Qed.

(** The shape of every validated call: one request on the controller's
    transport, nothing else in the store touched, and the request's future
    handed back ([getCurrent], being [async], hands back a promise resolved
    with it). *)
Lemma valid_call m this args w c lc :
  is_placeholder m = false ->
  options_bind m args = true ->
  first_missing m args = None ->
  transport_of m this w = Some c ->
  lineclients w !! c = Some lc ->
  exists ev payload,
    call m this args w =
      (Normal match m with
              | Clients_getCurrent => RAsyncResolved (RFuture c (length (lc_sent lc)))
              | _ => RFuture c (length (lc_sent lc))
              end,
       after_send c ev payload lc w)
    /\ match m with
       | Rooms_findById => ev = "get_room_info"
       | _ => In ev (if is_rooms m then internal_room_events else internal_client_events)
       end.
Proof.
  intros Hp Hb Hf Ht Hlc.
  destruct (is_rooms m) eqn:Hm.
  - destruct (transport_of_rooms m this w c Hm Ht) as (rc & Hrc & <-).
    destruct m; try discriminate; clear Hm Hp Ht; simpl;
      unfold options_bind, first_missing in *; simpl in *;
      open_method; name_args args.
    all: try match type of Hb with
           | context [match ?a with _ => _ end] => destruct a; simpl in *; try discriminate
           end.
    all: repeat match type of Hf with
           | context [truthy ?v] => destruct (truthy v) eqn:?; simpl in *
           end.
    all: try discriminate.
    all: eexists; eexists; (split; [apply rooms_client_send_ok; eassumption|]).
    all: simpl; tauto.
  - destruct (transport_of_clients m this w c Hm Ht) as (cc & Hcc & <-).
    destruct m; try discriminate; clear Hm Hp Ht; simpl;
      unfold options_bind, first_missing in *; simpl in *.
    6: { unfold ClientController.getCurrent, async.
         rewrite (clients_client_send_ok this cc lc _ _ w Hcc Hlc).
         eexists; eexists; split; [reflexivity|]. simpl; tauto. }
    all: open_method; name_args args.
    all: try match type of Hb with
           | context [match ?a with _ => _ end] => destruct a; simpl in *; try discriminate
           end.
    all: repeat match type of Hf with
           | context [truthy ?v] => destruct (truthy v) eqn:?; simpl in *
           end.
    all: try discriminate.
    all: eexists; eexists; (split; [apply clients_client_send_ok; eassumption|]).
    all: simpl; tauto.
Qed.

(** C2, as the code has it: each of the fourteen operations, called with
    every required field present and options its parameter pattern accepts,
    makes exactly one request on its transport.  The event name is one of
    the internal identifiers of section 6, except for [Rooms.findById],
    which sends on [get_room_info], a name of the public [Events] table. *)
Theorem valid_call_sends_once m this args w c lc :
  is_placeholder m = false ->
  options_bind m args = true ->
  first_missing m args = None ->
  transport_of m this w = Some c ->
  lineclients w !! c = Some lc ->
  exists ev payload r w',
    call m this args w = (Normal r, w')
    /\ lc_sent <$> lineclients w' !! c = Some (lc_sent lc ++ [(ev, payload)])
    /\ (forall c', c' <> c -> lineclients w' !! c' = lineclients w !! c')
    /\ match m with
       | Rooms_findById => ev = "get_room_info"
       | _ => In ev (if is_rooms m then internal_room_events else internal_client_events)
       end.
Proof.
  intros Hp Hb Hf Ht Hlc.
  destruct (valid_call m this args w c lc Hp Hb Hf Ht Hlc) as (ev & payload & Hcall & Hev).
  exists ev, payload. eexists. eexists. split; [exact Hcall|].
  split; [|split; [|exact Hev]].
  - unfold after_send, set_lineclients; simpl.
    rewrite list_lookup_insert_eq by (eapply lookup_lt_Some; eassumption).
    reflexivity.
  - intros c' Hne. unfold after_send, set_lineclients; simpl.
    apply list_lookup_insert_ne. congruence.
Qed.

Lemma valid_call_sends_once_witness :
  exists ev payload r w',
    call Rooms_sendMessageById 0 [Num 1; Obj [("text", Str "Jarvis is ready.")]] connected =
      (Normal r, w')
    /\ lc_sent <$> lineclients w' !! 0 = Some (lc_sent connectedClient ++ [(ev, payload)])
    /\ (forall c', c' <> 0 -> lineclients w' !! c' = lineclients connected !! c')
    /\ In ev internal_room_events.
Proof.
  apply (valid_call_sends_once Rooms_sendMessageById 0
           [Num 1; Obj [("text", Str "Jarvis is ready.")]] connected 0 connectedClient);
    reflexivity.
Defined.

(** C2 fails on the code: [Rooms.findById(1)] sends on [get_room_info],
    which is not among the internal identifiers of section 6. *)
Lemma findById_event_not_internal :
  call Rooms_findById 0 [Num 1] connected =
    (Normal (RFuture 0 0),
     after_send 0 "get_room_info" (Obj [("roomId", Num 1)]) connectedClient connected)
  /\ ~ In "get_room_info" (internal_room_events ++ internal_client_events).
Proof.
  split; [reflexivity|].
  simpl. intros H. repeat destruct H as [H|H]; try discriminate H. exact H.
Qed.




(** C10, on the code: presence is tested by truthiness.  A room id of [0]
    is rejected with "roomId is required" by each of the six Rooms
    operations taking one, provided [sendMessageById] is given an options
    object: called with the room id alone it throws a [TypeError] before it
    looks at the room id.  An empty-string client key is rejected by the
    Clients operations, and an empty [properties] object passes the presence
    test of [Clients.create]. *)
Theorem falsy_identifiers_rejected this (o : list (string * Val)) (rest : list Val) w :
  RoomsController.findById this (Num 0 :: rest) w =
    (Normal (RRejected "roomId is required"), w)
  /\ RoomsController.sendMessageById this (Num 0 :: Obj o :: rest) w =
       (Normal (RRejected "roomId is required"), w)
  /\ RoomsController.sendMessageById this [Num 0] w = (Throw TypeError, w)
  /\ RoomsController.getMessagesById this (Num 0 :: rest) w =
       (Normal (RRejected "roomId is required"), w)
  /\ RoomsController.updateById this (Num 0 :: Obj o :: rest) w =
       (Normal (RRejected "roomId is required"), w)
  /\ RoomsController.addMemberById this (Num 0 :: Obj o :: rest) w =
       (Normal (RRejected "roomId is required"), w)
  /\ RoomsController.updateMemberById this (Num 0 :: Obj o :: rest) w =
       (Normal (RRejected "roomId is required"), w)
  /\ RoomsController.updateById this [Num 0] w =
       (Normal (RRejected "roomId is required"), w)
  /\ RoomsController.addMemberById this [Num 0] w =
       (Normal (RRejected "roomId is required"), w)
  /\ RoomsController.updateMemberById this [Num 0] w =
       (Normal (RRejected "roomId is required"), w)
  /\ ClientController.create this (Obj (("uniqueClientKey", Str "") :: o) :: rest) w =
       (Normal (RRejected "uniqueClientKey is required"), w)
  /\ ClientController.upsert this (Str "" :: Obj o :: rest) w =
       (Normal (RRejected "uniqueClientKey is required"), w)
  /\ ClientController.update this (Str "" :: Obj o :: rest) w =
       (Normal (RRejected "uniqueClientKey is required"), w)
  /\ ClientController.delete this (Str "" :: rest) w =
       (Normal (RRejected "uniqueClientKey is required"), w)
  /\ ClientController.findByKey this (Str "" :: rest) w =
       (Normal (RRejected "uniqueClientKey is required"), w)
  /\ truthy (Obj []) = true
  /\ (forall cc lc (k t : Val),
        truthy k = true -> truthy t = true ->
        clients w !! this = Some cc ->
        lineclients w !! cc_client cc = Some lc ->
        ClientController.create this
          [Obj [("uniqueClientKey", k); ("token", t); ("properties", Obj [])]] w =
          (Normal (RFuture (cc_client cc) (length (lc_sent lc))),
           after_send (cc_client cc) "add_client"
             (Obj [("uniqueClientKey", k); ("token", t); ("properties", Obj [])]) lc w)).
Proof.
  repeat split; try reflexivity.
  intros cc lc k t Hk Ht Hcc Hlc.
  unfold ClientController.create. unfold_body. rewrite Hk, Ht. simpl.
  apply clients_client_send_ok; assumption.
Qed.

Lemma falsy_identifiers_rejected_witness :
  RoomsController.findById 0 [Num 0] connected =
    (Normal (RRejected "roomId is required"), connected)
  /\ ClientController.findByKey 0 [Str ""] connected =
       (Normal (RRejected "uniqueClientKey is required"), connected)
  /\ ClientController.create 0
       [Obj [("uniqueClientKey", Str "user-1"); ("token", Str "user-1-token");
             ("properties", Obj [])]] connected =
       (Normal (RFuture 0 0),
        after_send 0 "add_client"
          (Obj [("uniqueClientKey", Str "user-1"); ("token", Str "user-1-token");
                ("properties", Obj [])]) connectedClient connected).
Proof.
  destruct (falsy_identifiers_rejected 0 [] [] connected)
    as (H1 & _ & _ & _ & _ & _ & _ & _ & _ & _ & _ & _ & _ & _ & H11 & _ & H13).
  split; [exact H1|]. split; [exact H11|].
  apply (H13 connectedClients connectedClient (Str "user-1") (Str "user-1-token"));
    reflexivity.
Defined.

(** ** The Rooms event router *)

(** Construction registers the four router handlers on the transport. *)
Lemma new_rooms_ok c lc w :
  lineclients w !! c = Some lc ->
  RoomsController.new c w =
    (Normal (length (rooms w)),
     set_lineclients
       (fun l => <[c := mkLineClient (lc_endpoint lc) (lc_options lc)
                          (lc_handlers lc ++ router_handlers (length (rooms w)))
                          (lc_sent lc) (lc_connects lc) (lc_disconnects lc)]> l)
       (set_rooms (fun l => l ++ [mkRooms c []]) w)).
Proof.
  intros Hlc.
  assert (Hlt : c < length (lineclients w)) by (eapply lookup_lt_Some; eassumption).
  unfold RoomsController.new, RoomsController.bindEvents, bind,
    RoomsController.this_client, LineClient.on, LineClient.update, ret.
  simpl.
  rewrite !lookup_app_r by lia. rewrite Nat.sub_diag. simpl.
  rewrite Hlc. simpl.
  rewrite !lookup_app_r by lia. rewrite Nat.sub_diag. simpl.
  rewrite list_lookup_insert_eq by lia. simpl.
  rewrite !lookup_app_r by lia. rewrite Nat.sub_diag. simpl.
  rewrite list_lookup_insert_eq by (rewrite length_insert; lia). simpl.
  rewrite !lookup_app_r by lia. rewrite Nat.sub_diag. simpl.
  rewrite list_lookup_insert_eq by (rewrite !length_insert; lia). simpl.
  unfold set_lineclients, set_rooms; simpl.
  rewrite !list_insert_insert_eq.
  rewrite <- !app_assoc. reflexivity.
Qed.

Lemma run_handlers_app hs1 hs2 args w :
  run_handlers (hs1 ++ hs2) args w =
    (run_handlers hs1 args ;;; run_handlers hs2 args) w.
Proof.
  revert w. induction hs1 as [|h hs1 IH]; intros w; simpl.
  - reflexivity.
  - unfold bind. destruct (run_handler h args w) as [[[]|e] w1]; [|reflexivity].
    rewrite IH. reflexivity.
Qed.

Lemma subscribed_app name hs1 hs2 :
  LineClient.subscribed name (hs1 ++ hs2) =
    LineClient.subscribed name hs1 ++ LineClient.subscribed name hs2.
Proof. unfold LineClient.subscribed. rewrite List.filter_app, map_app. reflexivity. Qed.

Lemma deliveries_of_other em em' name args ls ds :
  emitter_eqb em' em = false ->
  deliveries_of em (ds ++ map (fun l : nat => (em', l, name, args)) ls) = deliveries_of em ds.
Proof.
  intros Hne. unfold deliveries_of. rewrite List.filter_app.
  assert (H : List.filter (fun d : Delivery => emitter_eqb (fst (fst (fst d))) em)
                (map (fun l : nat => (em', l, name, args)) ls) = []).
  { induction ls as [|l ls IH]; simpl; [reflexivity|]. rewrite Hne. exact IH. }
  etransitivity; [apply f_equal; exact H | apply app_nil_r].
Qed.

Lemma deliveries_of_same em name args ls ds :
  deliveries_of em (ds ++ map (fun l : nat => (em, l, name, args)) ls) =
    deliveries_of em ds ++ map (fun l : nat => (em, l, name, args)) ls.
Proof.
  unfold deliveries_of. rewrite List.filter_app. f_equal.
  induction ls as [|l ls IH]; simpl; [reflexivity|].
  assert (Hrefl : emitter_eqb em em = true)
    by (destruct em; simpl; try reflexivity; apply Nat.eqb_refl).
  rewrite Hrefl, IH. reflexivity.
Qed.

Lemma emitter_eqb_refl em : emitter_eqb em em = true.
Proof. destruct em; simpl; try reflexivity; apply Nat.eqb_refl. Qed.

Lemma emissions_of_other em em' name args es :
  emitter_eqb em' em = false ->
  emissions_of em (es ++ [(em', name, args)]) = emissions_of em es.
Proof.
  intros Hne. unfold emissions_of. rewrite List.filter_app. simpl. rewrite Hne.
  apply app_nil_r.
Qed.

Lemma emissions_of_same em name args es :
  emissions_of em (es ++ [(em, name, args)]) = emissions_of em es ++ [(em, name, args)].
Proof.
  unfold emissions_of. rewrite List.filter_app. simpl. rewrite emitter_eqb_refl.
  reflexivity.
Qed.

Lemma quiet_trans r w1 w2 w3 : quiet r w1 w2 -> quiet r w2 w3 -> quiet r w1 w3.
Proof.
  unfold quiet. intros (A1 & A2 & A3 & A4) (B1 & B2 & B3 & B4).
  repeat split; congruence.
Qed.

(** A handler of another controller, or of the SocketKit object, given an
    object as message, returns normally and is quiet for [r]. *)
Lemma run_handler_quiet r h env more w :
  match h with Forward r' _ => (r' =? r) = false | _ => True end ->
  exists w', run_handler h (Obj env :: more) w = (Normal tt, w') /\ quiet r w w'.
Proof.
  destruct h; simpl; intros Hh; eexists; (split; [reflexivity|]);
    unfold quiet; simpl; repeat split;
    first [ apply emissions_of_other | apply deliveries_of_other ];
    first [ reflexivity | exact Hh ].
Qed.

Lemma run_handlers_quiet r name hs env more w :
  handlers_within r hs = true ->
  exists w', run_handlers (LineClient.subscribed name hs) (Obj env :: more) w = (Normal tt, w')
             /\ quiet r w w'.
Proof.
  revert w. induction hs as [|[k h] hs IH]; intros w Hin; simpl.
  - eexists; split; [reflexivity|]. repeat split.
  - simpl in Hin. apply andb_true_iff in Hin as [Hh Hin].
    unfold LineClient.subscribed in *. simpl.
    destruct (String.eqb k name); simpl; [|apply IH; exact Hin].
    destruct (run_handler_quiet r h env more w) as (w1 & Hrun & Hq1).
    { destruct h; try exact I. simpl in Hh. apply Nat.ltb_lt in Hh.
      apply Nat.eqb_neq. lia. }
    destruct (IH w1 Hin) as (w2 & Hrun2 & Hq2).
    exists w2. split.
    + unfold bind. rewrite Hrun. exact Hrun2.
    + eapply quiet_trans; eassumption.
Qed.

(** Firing a routed event on a transport that carries controller [r]'s
    router handlers after handlers of older controllers: [r] emits once,
    under the same name, the inner payload, to each of its listeners. *)
Lemma fire_routes r c lc hs n p rest more v :
  lineclients v !! c = Some lc ->
  lc_handlers lc = hs ++ router_handlers r ->
  handlers_within r hs = true ->
  In n routed_events ->
  exists v',
    fire c n (Obj (("payload", p) :: rest) :: more) v = (Normal tt, v')
    /\ emissions_of (EmRooms r) (emitted v') =
         emissions_of (EmRooms r) (emitted v) ++ [(EmRooms r, n, [p])]
    /\ deliveries_of (EmRooms r) (delivered v') =
         deliveries_of (EmRooms r) (delivered v) ++
         map (fun l : nat => (EmRooms r, l, n, [p]))
           (EventEmitterExtra.targets n (EventEmitterExtra.listeners (EmRooms r) v)).
Proof.
  intros Hlc Hhs Hin Hn.
  unfold fire. rewrite Hlc, Hhs, subscribed_app, run_handlers_app.
  destruct (run_handlers_quiet r n hs (("payload", p) :: rest) more v Hin)
    as (w1 & Hrun & Hr & _ & He & Hd).
  unfold bind at 1. rewrite Hrun.
  assert (Hls : EventEmitterExtra.listeners (EmRooms r) v =
                EventEmitterExtra.listeners (EmRooms r) w1)
    by (simpl; rewrite Hr; reflexivity).
  rewrite Hls, <- He, <- Hd.
  simpl in Hn.
  destruct Hn as [<-|[<-|[<-|[<-|[]]]]]; simpl;
    (eexists; split; [reflexivity|]); simpl;
    (split; [apply emissions_of_same | apply deliveries_of_same]).
Qed.

(** The first delivery to a controller just constructed on a transport:
    it emits once, under the same name, the inner payload; without a
    listener nothing is called and nothing fails, and a listener subscribed
    to that name is called once. *)
Lemma router_first_delivery w c lc n (p : Val) rest more (l : nat) :
  lineclients w !! c = Some lc ->
  handlers_within (length (rooms w)) (lc_handlers lc) = true ->
  In n routed_events ->
  let r := length (rooms w) in
  let w1 := snd (RoomsController.new c w) in
  let envelope := Obj (("payload", p) :: rest) in
  fst (RoomsController.new c w) = Normal r
  /\ (exists w2,
        fire c n (envelope :: more) w1 = (Normal tt, w2)
        /\ emissions_of (EmRooms r) (emitted w2) =
             emissions_of (EmRooms r) (emitted w1) ++ [(EmRooms r, n, [p])]
        /\ deliveries_of (EmRooms r) (delivered w2) =
             deliveries_of (EmRooms r) (delivered w1))
  /\ (exists w2,
        fire c n (envelope :: more) (snd (EventEmitterExtra.on (EmRooms r) n l w1)) =
          (Normal tt, w2)
        /\ emissions_of (EmRooms r) (emitted w2) =
             emissions_of (EmRooms r) (emitted w1) ++ [(EmRooms r, n, [p])]
        /\ deliveries_of (EmRooms r) (delivered w2) =
             deliveries_of (EmRooms r) (delivered w1) ++ [(EmRooms r, l, n, [p])]).
Proof.
  intros Hlc Hin Hn r w1 envelope.
  assert (Hlt : c < length (lineclients w)) by (eapply lookup_lt_Some; eassumption).
  subst w1. rewrite (new_rooms_ok c lc w Hlc). simpl. fold r.
  set (lc' := mkLineClient (lc_endpoint lc) (lc_options lc)
                (lc_handlers lc ++ router_handlers r)
                (lc_sent lc) (lc_connects lc) (lc_disconnects lc)).
  split; [reflexivity|]. split.
  - match goal with
    | |- context [fire _ _ _ ?v] =>
        destruct (fire_routes r c lc' (lc_handlers lc) n p rest more v)
          as (w2 & Hf & He & Hd)
    end; [ | reflexivity | exact Hin | exact Hn | ].
    + simpl. apply list_lookup_insert_eq. exact Hlt.
    + exists w2. split; [exact Hf|]. split; [exact He|].
      rewrite Hd. simpl.
      unfold r. rewrite lookup_app_r by lia. rewrite Nat.sub_diag. simpl.
      apply app_nil_r.
  - match goal with
    | |- context [fire _ _ _ ?v] =>
        destruct (fire_routes r c lc' (lc_handlers lc) n p rest more v)
          as (w2 & Hf & He & Hd)
    end; [ | reflexivity | exact Hin | exact Hn | ].
    + simpl. apply list_lookup_insert_eq. exact Hlt.
    + exists w2. split; [exact Hf|]. split; [exact He|].
      rewrite Hd. simpl.
      rewrite list_lookup_alter_eq.
      unfold r. rewrite lookup_app_r by lia. rewrite Nat.sub_diag. simpl.
      unfold EventEmitterExtra.targets. simpl. rewrite String.eqb_refl. reflexivity.
Qed.

(** ** The connection flag *)

Lemma rooms_client_send_frame this ev p w :
  sk (snd (RoomsController.client_send this ev p w)) = sk w
  /\ wiring (snd (RoomsController.client_send this ev p w)) = wiring w.
Proof.
  unfold RoomsController.client_send, bind, RoomsController.this_client, LineClient.send.
  destruct (rooms w !! this) as [rc|]; simpl; [|split; reflexivity].
  destruct (lineclients w !! rc_client rc) as [lc|] eqn:Hlc; simpl; [|split; reflexivity].
  split; [reflexivity|].
  unfold wiring; simpl. rewrite list_fmap_insert. simpl.
  apply list_insert_id. rewrite list_lookup_fmap, Hlc. reflexivity.
Qed.

Lemma clients_client_send_frame this ev p w :
  sk (snd (ClientController.client_send this ev p w)) = sk w
  /\ wiring (snd (ClientController.client_send this ev p w)) = wiring w.
Proof.
  unfold ClientController.client_send, bind, ClientController.this_client, LineClient.send.
  destruct (clients w !! this) as [cc|]; simpl; [|split; reflexivity].
  destruct (lineclients w !! cc_client cc) as [lc|] eqn:Hlc; simpl; [|split; reflexivity].
  split; [reflexivity|].
  unfold wiring; simpl. rewrite list_fmap_insert. simpl.
  apply list_insert_id. rewrite list_lookup_fmap, Hlc. reflexivity.
Qed.

(** No controller method, valid call or not, touches the SocketKit object
    or the handlers on a transport. *)
Lemma call_frame m this args w :
  sk (snd (call m this args w)) = sk w
  /\ wiring (snd (call m this args w)) = wiring w.
Proof.
  destruct m; simpl; open_method; name_args args;
    try (split; reflexivity);
    repeat match goal with
    | |- context [get ?v ?k] => destruct (get v k); simpl; try (split; reflexivity)
    | |- context [if negb (truthy ?v) then _ else _] =>
        destruct (truthy v); simpl; try (split; reflexivity)
    end;
    try apply rooms_client_send_frame; try apply clients_client_send_frame.
  unfold ClientController.getCurrent, async.
  pose proof (clients_client_send_frame this ClientController.Events.GET_CURRENT_CLIENT
                Undefined w) as H.
  destruct (ClientController.client_send this ClientController.Events.GET_CURRENT_CLIENT
              Undefined w) as [[v|e] w']; exact H.
Qed.

Lemma lookup_snoc {A} (l : list A) (x : A) : (l ++ [x]) !! length l = Some x.
Proof. apply list_lookup_middle. reflexivity. Qed.

Lemma insert_snoc {A} (l : list A) (x y : A) : <[length l := y]> (l ++ [x]) = l ++ [y].
Proof. rewrite insert_app_r_alt by lia. rewrite Nat.sub_diag. reflexivity. Qed.

(** [connect] on a SocketKit that is not connected: a new transport is
    built, wired with the lifecycle handlers, asked to connect, and given to
    a new Rooms and a new Clients controller.  The flag is not written. *)
Lemma connect_ok E w :
  sk_isConnected (sk w) = false ->
  SocketKit.connect E w =
    (Normal RUndefined,
     mkWorld
       (mkSocketKit (sk_token (sk w)) (sk_accountId (sk w)) (sk_endpoint (sk w))
          (Some (length (lineclients w))) (sk_isConnected (sk w))
          (Some (length (rooms w))) (Some (length (clients w))) (sk_listeners (sk w)))
       (lineclients w ++
        [mkLineClient (sk_endpoint (sk w))
           (Obj [("handshake",
                  Obj [("payload",
                        Obj [("accountId", sk_accountId (sk w));
                             ("token", sk_token (sk w))])])])
           (lifecycle_handlers E ++ router_handlers (length (rooms w))) [] 1 0])
       (rooms w ++ [mkRooms (length (lineclients w)) []])
       (clients w ++ [mkClients (length (lineclients w)) []])
       (emitted w) (delivered w) (console w)).
Proof.
  destruct w as [s lcs rs cs em dl co]. simpl. intros Hc.
  unfold SocketKit.connect. simpl. rewrite Hc.
  unfold SocketKit.bindEvents, RoomsController.new, RoomsController.bindEvents,
    ClientController.new, bind, ret, SocketKit.this_client, SocketKit.set_client,
    SocketKit.set_Rooms, SocketKit.set_Clients, RoomsController.this_client,
    LineClient.new, LineClient.on, LineClient.connect, LineClient.update,
    set_sk, set_clients, set_rooms, set_lineclients.
  simpl.
  repeat (rewrite ?lookup_snoc, ?insert_snoc; simpl).
  rewrite ?Hc. reflexivity.
Qed.

Lemma new_rooms_unwired c w :
  lineclients w !! c = None ->
  snd (RoomsController.new c w) = set_rooms (fun l => l ++ [mkRooms c []]) w.
Proof.
  intros Hlc.
  unfold RoomsController.new, RoomsController.bindEvents, bind,
    RoomsController.this_client, LineClient.on, LineClient.update.
  simpl. rewrite lookup_snoc. simpl. rewrite Hlc. reflexivity.
Qed.

Lemma router_handlers_forward r :
  Forall (fun nh : string * Handler => is_forward (snd nh) = true) (router_handlers r).
Proof. repeat constructor. Qed.

(** Handlers never touch a transport. *)
Lemma run_handlers_lineclients hs args w :
  lineclients (snd (run_handlers hs args w)) = lineclients w.
Proof.
  revert w. induction hs as [|h hs IH]; intros w; simpl; [reflexivity|].
  unfold bind.
  destruct (run_handler h args w) as [[[]|e] w1] eqn:Hrun.
  - rewrite IH.
    destruct h; simpl in Hrun; try (injection Hrun as <-; reflexivity).
    unfold RoomsController.forward, bind, lift in Hrun.
    destruct (get (arg 0 args) "payload"); simpl in Hrun;
      [injection Hrun as <-; reflexivity | discriminate].
  - simpl.
    destruct h; simpl in Hrun; try discriminate.
    unfold RoomsController.forward, bind, lift in Hrun.
    destruct (get (arg 0 args) "payload"); simpl in Hrun;
      [discriminate | injection Hrun as _ <-; reflexivity].
Qed.

(** Router handlers never touch the SocketKit object. *)
Lemma forwards_keep_sk name rest args w :
  Forall (fun nh : string * Handler => is_forward (snd nh) = true) rest ->
  sk (snd (run_handlers (LineClient.subscribed name rest) args w)) = sk w.
Proof.
  intros Hfw. revert w. induction Hfw as [|[k h] rest Hh _ IH]; intros w; [reflexivity|].
  unfold LineClient.subscribed in *. simpl.
  destruct (String.eqb k name); simpl; [|apply IH].
  destruct h; try discriminate. simpl.
  unfold bind at 1, RoomsController.forward, bind, lift.
  destruct (get (arg 0 args) "payload"); simpl; [|reflexivity].
  rewrite IH. reflexivity.
Qed.

(** What the lifecycle handlers make of an event. *)
Lemma lifecycle_handlers_run E name args w :
  LineClient.CONNECTED E <> LineClient.DISCONNECTED E ->
  exists w1,
    run_handlers (LineClient.subscribed name (lifecycle_handlers E)) args w = (Normal tt, w1)
    /\ sk_isConnected (sk w1) = default (sk_isConnected (sk w)) (lifecycle E name).
Proof.
  intros Hne. unfold LineClient.subscribed, lifecycle_handlers, lifecycle. simpl.
  destruct (String.eqb (LineClient.CONNECTED E) name) eqn:H1;
    destruct (String.eqb (LineClient.DISCONNECTED E) name) eqn:H2;
    try (apply String.eqb_eq in H1; apply String.eqb_eq in H2; congruence);
    destruct (String.eqb (LineClient.ERROR E) name);
    destruct (String.eqb (LineClient.CONNECTING_ERROR E) name);
    simpl; eexists; split; reflexivity.
Qed.

(** A firing on a wired transport sets the flag as the event says, or
    leaves it when the event is no lifecycle event. *)
Lemma fire_flag E c lc name args w :
  LineClient.CONNECTED E <> LineClient.DISCONNECTED E ->
  lineclients w !! c = Some lc ->
  wired E (lc_handlers lc) ->
  sk_isConnected (sk (snd (fire c name args w))) =
    default (sk_isConnected (sk w)) (lifecycle E name).
Proof.
  intros Hne Hlc (rest & Hhs & Hfw).
  unfold fire. rewrite Hlc, Hhs, subscribed_app, run_handlers_app.
  destruct (lifecycle_handlers_run E name args w Hne) as (w1 & Hrun & Hflag).
  unfold bind. rewrite Hrun. rewrite forwards_keep_sk by exact Hfw. exact Hflag.
Qed.

Lemma disconnect_frame w :
  sk (snd (SocketKit.disconnect w)) = sk w
  /\ wiring (snd (SocketKit.disconnect w)) = wiring w.
Proof.
  unfold SocketKit.disconnect.
  destruct (sk_isConnected (sk w)); [|split; reflexivity].
  unfold bind, SocketKit.this_client, LineClient.disconnect, bind, LineClient.update, ret.
  destruct (sk_client (sk w)) as [c|]; simpl; [|split; reflexivity].
  destruct (lineclients w !! c) as [lc|] eqn:Hlc; simpl; [|split; reflexivity].
  split; [reflexivity|].
  unfold wiring; simpl. rewrite list_fmap_insert. simpl.
  apply list_insert_id. rewrite list_lookup_fmap, Hlc. reflexivity.
Qed.

(** Every step keeps every transport wired. *)
Lemma step_keeps_wired E a w :
  Forall (wired E) (wiring w) -> Forall (wired E) (wiring (step E a w)).
Proof.
  intros Hw. destruct a; simpl.
  - destruct (sk_isConnected (sk w)) eqn:Hc.
    + unfold SocketKit.connect. rewrite Hc. exact Hw.
    + rewrite (connect_ok E w Hc). unfold wiring; simpl.
      rewrite fmap_app. apply Forall_app. split; [exact Hw|].
      repeat constructor. exists (router_handlers (length (rooms w))).
      split; [reflexivity | apply router_handlers_forward].
  - destruct (disconnect_frame w) as [_ ->]. exact Hw.
  - destruct (call_frame m this args w) as [_ ->]. exact Hw.
  - destruct em; exact Hw.
  - destruct (lineclients w !! c) as [lc|] eqn:Hlc.
    + rewrite (new_rooms_ok c lc w Hlc). unfold wiring; simpl.
      rewrite list_fmap_insert. simpl. apply Forall_insert; [exact Hw|].
      assert (Hin : wired E (lc_handlers lc)).
      { eapply (proj1 (Forall_lookup _ _) Hw c).
        unfold wiring. rewrite list_lookup_fmap, Hlc. reflexivity. }
      destruct Hin as (rest & -> & Hfw).
      exists (rest ++ router_handlers (length (rooms w))).
      split; [rewrite <- app_assoc; reflexivity|].
      apply Forall_app. split; [exact Hfw | apply router_handlers_forward].
    + rewrite (new_rooms_unwired c w Hlc). exact Hw.
  - exact Hw.
  - unfold fire. destruct (lineclients w !! c) as [lc|]; [|exact Hw].
    unfold wiring. rewrite run_handlers_lineclients. exact Hw.
Qed.

(** Only a firing transport changes the flag: [connect], [disconnect],
    the controller methods, subscriptions and constructors leave it. *)
Lemma step_keeps_flag E a w :
  match a with Fire _ _ _ => False | _ => True end ->
  sk_isConnected (sk (step E a w)) = sk_isConnected (sk w).
Proof.
  destruct a; simpl; intros Ha; try contradiction.
  - destruct (sk_isConnected (sk w)) eqn:Hc.
    + unfold SocketKit.connect. rewrite Hc. simpl. exact Hc.
    + rewrite (connect_ok E w Hc). simpl. exact Hc.
  - destruct (disconnect_frame w) as [-> _]. reflexivity.
  - destruct (call_frame m this args w) as [-> _]. reflexivity.
  - destruct em; reflexivity.
  - destruct (lineclients w !! c) as [lc|] eqn:Hlc.
    + rewrite (new_rooms_ok c lc w Hlc). reflexivity.
    + rewrite (new_rooms_unwired c w Hlc). reflexivity.
  - reflexivity.
Qed.

Lemma run_flag E trace w :
  LineClient.CONNECTED E <> LineClient.DISCONNECTED E ->
  Forall (wired E) (wiring w) ->
  sk_isConnected (sk (run E trace w)) = last_lifecycle E trace w (sk_isConnected (sk w)).
Proof.
  intros Hne. revert w. induction trace as [|a trace IH]; intros w Hw; [reflexivity|].
  change (run E (a :: trace) w) with (run E trace (step E a w)).
  rewrite (IH _ (step_keeps_wired E a w Hw)). simpl last_lifecycle. f_equal.
  destruct a; try (apply step_keeps_flag; exact I).
  simpl. destruct (lineclients w !! c) as [lc|] eqn:Hlc.
  - eapply fire_flag; [exact Hne | exact Hlc |].
    eapply (proj1 (Forall_lookup _ _) Hw c).
    unfold wiring. rewrite list_lookup_fmap, Hlc. reflexivity.
  - unfold fire. rewrite Hlc. reflexivity.
Qed.

(** C7: in every state a SocketKit reaches from its construction, whatever
    the application calls and whatever the transports fire, [isConnected] is
    what the last lifecycle event said ([true] for CONNECTED, [false] for
    DISCONNECTED, [false] before any); and from such a state no [connect],
    [disconnect], controller method, subscription or construction writes
    the flag. *)
Theorem isConnected_follows_lifecycle E args w0 trace :
  LineClient.CONNECTED E <> LineClient.DISCONNECTED E ->
  SocketKit.new args = Normal w0 ->
  sk_isConnected (sk (run E trace w0)) = last_lifecycle E trace w0 false
  /\ (forall a, match a with Fire _ _ _ => False | _ => True end ->
        sk_isConnected (sk (step E a (run E trace w0))) =
          sk_isConnected (sk (run E trace w0)))
  /\ (forall c lc name fargs,
        lineclients (run E trace w0) !! c = Some lc ->
        sk_isConnected (sk (step E (Fire c name fargs) (run E trace w0))) =
          default (sk_isConnected (sk (run E trace w0))) (lifecycle E name)).
Proof.
  intros Hne Hnew.
  assert (Hinit : sk_isConnected (sk w0) = false /\ wiring w0 = []).
  { unfold SocketKit.new in Hnew.
    destruct (get _ "token"); [|discriminate].
    destruct (get _ "accountId"); [|discriminate].
    destruct (get _ "endpoint"); [|discriminate].
    injection Hnew as <-. split; reflexivity. }
  destruct Hinit as [Hflag Hwiring].
  assert (Hw0 : Forall (wired E) (wiring w0)) by (rewrite Hwiring; constructor).
  assert (Hreach : Forall (wired E) (wiring (run E trace w0))).
  { clear Hflag Hwiring Hnew. revert w0 Hw0.
    induction trace as [|a trace IH]; intros w0 Hw0; [exact Hw0|].
    simpl. apply IH. apply step_keeps_wired. exact Hw0. }
  split; [|split].
  - rewrite <- Hflag. apply run_flag; assumption.
  - intros a Ha. apply step_keeps_flag. exact Ha.
  - intros c lc name fargs Hlc. simpl.
    eapply fire_flag; [exact Hne | exact Hlc |].
    eapply (proj1 (Forall_lookup _ _) Hreach c).
    unfold wiring. rewrite list_lookup_fmap, Hlc. reflexivity.
Qed.

Lemma isConnected_follows_lifecycle_witness :
  sk_isConnected (sk (run sampleEvent
    [Connect; Fire 0 "_connected" [];
     Call Rooms_findAll 0 []; Disconnect;
     Fire 0 "_disconnected" [Num 1000; Str "bye"]; Connect] fresh)) = false
  /\ sk_isConnected (sk connected) = true.
Proof.
  destruct (isConnected_follows_lifecycle sampleEvent
              [Obj [("token", Str "abc"); ("accountId", Num 1)]] fresh
              [Connect; Fire 0 "_connected" [];
               Call Rooms_findAll 0 []; Disconnect;
               Fire 0 "_disconnected" [Num 1000; Str "bye"]; Connect])
    as (H1 & _ & _); [discriminate | reflexivity |].
  destruct (isConnected_follows_lifecycle sampleEvent
              [Obj [("token", Str "abc"); ("accountId", Num 1)]] fresh
              [Connect; Fire 0 "_connected" []])
    as (H2 & _ & _); [discriminate | reflexivity |].
  split; [rewrite H1; reflexivity | exact H2].
Defined.

(** ** What a call can do to the store *)

Lemma rooms_client_send_cases this ev p w :
  RoomsController.client_send this ev p w = (Throw TypeError, w)
  \/ exists rc lc,
       rooms w !! this = Some rc /\ lineclients w !! rc_client rc = Some lc
       /\ RoomsController.client_send this ev p w =
            (Normal (RFuture (rc_client rc) (length (lc_sent lc))),
             after_send (rc_client rc) ev p lc w).
Proof.
  destruct (rooms w !! this) as [rc|] eqn:Hrc.
  - destruct (lineclients w !! rc_client rc) as [lc|] eqn:Hlc.
    + right. exists rc, lc. split; [reflexivity|]. split; [exact Hlc|].
      apply rooms_client_send_ok; assumption.
    + left. unfold RoomsController.client_send, bind, RoomsController.this_client,
        LineClient.send. rewrite Hrc. simpl. rewrite Hlc. reflexivity.
  - left. unfold RoomsController.client_send, bind, RoomsController.this_client.
    rewrite Hrc. reflexivity.
Qed.

Lemma clients_client_send_cases this ev p w :
  ClientController.client_send this ev p w = (Throw TypeError, w)
  \/ exists cc lc,
       clients w !! this = Some cc /\ lineclients w !! cc_client cc = Some lc
       /\ ClientController.client_send this ev p w =
            (Normal (RFuture (cc_client cc) (length (lc_sent lc))),
             after_send (cc_client cc) ev p lc w).
Proof.
  destruct (clients w !! this) as [cc|] eqn:Hcc.
  - destruct (lineclients w !! cc_client cc) as [lc|] eqn:Hlc.
    + right. exists cc, lc. split; [reflexivity|]. split; [exact Hlc|].
      apply clients_client_send_ok; assumption.
    + left. unfold ClientController.client_send, bind, ClientController.this_client,
        LineClient.send. rewrite Hcc. simpl. rewrite Hlc. reflexivity.
  - left. unfold ClientController.client_send, bind, ClientController.this_client.
    rewrite Hcc. reflexivity.
Qed.

(** Every call, on every store and with any arguments, either leaves the
    store as it is and hands back no future, or appends one request to the
    controller's transport and hands back (a promise settling as) its
    future. *)
Lemma call_cases m this args w :
  (snd (call m this args w) = w
   /\ hands_back_future (fst (call m this args w)) = false)
  \/ exists c lc ev payload r,
       transport_of m this w = Some c
       /\ lineclients w !! c = Some lc
       /\ call m this args w = (Normal r, after_send c ev payload lc w)
       /\ settles_as r = RFuture c (length (lc_sent lc)).
Proof.
  destruct m; simpl; open_method; name_args args;
    try (left; split; reflexivity);
    repeat match goal with
    | |- context [get ?v ?k] => destruct (get v k); simpl; try (left; split; reflexivity)
    | |- context [if negb (truthy ?v) then _ else _] =>
        destruct (truthy v); simpl; try (left; split; reflexivity)
    end;
    try match goal with
    | |- context [RoomsController.client_send ?t ?e ?p ?w] =>
        destruct (rooms_client_send_cases t e p w) as [H|(rc & lc & Hrc & Hlc & H)];
          rewrite H;
          [ left; split; reflexivity
          | right; exists (rc_client rc), lc, e, p; eexists;
            unfold transport_of; simpl; rewrite Hrc; simpl;
            repeat split; first [exact Hlc | reflexivity] ]
    | |- context [ClientController.client_send ?t ?e ?p ?w] =>
        destruct (clients_client_send_cases t e p w) as [H|(cc & lc & Hcc & Hlc & H)];
          rewrite H;
          [ left; split; reflexivity
          | right; exists (cc_client cc), lc, e, p; eexists;
            unfold transport_of; simpl; rewrite Hcc; simpl;
            repeat split; first [exact Hlc | reflexivity] ]
    end.
  unfold ClientController.getCurrent, async.
  match goal with
  | |- context [ClientController.client_send ?t ?e ?p ?w] =>
      destruct (clients_client_send_cases t e p w) as [H|(cc & lc & Hcc & Hlc & H)];
        rewrite H;
        [ left; split; reflexivity
        | right; exists (cc_client cc), lc, e, p; eexists;
          unfold transport_of; simpl; rewrite Hcc; simpl;
          repeat split; first [exact Hlc | reflexivity] ]
  end.
Qed.

(** X2: a controller method makes at most one request.  Whatever the
    store and the arguments, a call touches nothing but the request log of
    its transport; if it hands back no future (it threw, rejected, or is a
    placeholder) the store is exactly as before; if it hands back a future,
    exactly one request was appended and the future is that request's. *)
Theorem call_sends_at_most_once m this args w :
  let o := fst (call m this args w) in
  let w' := snd (call m this args w) in
  sk w' = sk w /\ rooms w' = rooms w /\ clients w' = clients w
  /\ emitted w' = emitted w /\ delivered w' = delivered w /\ console w' = console w
  /\ length (lineclients w') = length (lineclients w)
  /\ (hands_back_future o = false -> w' = w)
  /\ (hands_back_future o = true ->
      exists c lc ev payload r,
        transport_of m this w = Some c
        /\ lineclients w !! c = Some lc
        /\ w' = after_send c ev payload lc w
        /\ o = Normal r
        /\ settles_as r = RFuture c (length (lc_sent lc))).
Proof.
  intros o w'. subst o w'.
  destruct (call_cases m this args w)
    as [[Hw Ho]|(c & lc & ev & payload & r & Ht & Hlc & Hcall & Hr)].
  - rewrite Hw, Ho. repeat split; try reflexivity. discriminate.
  - rewrite Hcall. simpl.
    repeat split; try reflexivity.
    + unfold after_send, set_lineclients. simpl. apply length_insert.
    + unfold hands_back_future. rewrite Hr. discriminate.
    + intros _. exists c, lc, ev, payload, r. repeat split; assumption.
Qed.

(** X3: [null] passed where a method destructures its options makes the
    call throw a [TypeError] while binding its parameters: no validation
    error is produced, whatever the other arguments, and nothing is sent. *)
Theorem null_options_throw m i this args w :
  options_index m = Some i ->
  arg i args = Null ->
  call m this args w = (Throw TypeError, w).
Proof.
  intros Hi Hnull. apply unbound_options_throw.
  unfold options_bind. rewrite Hi, Hnull. reflexivity.
Qed.

Lemma null_options_throw_witness :
  call Rooms_updateById 0 [Num 0; Null] connected = (Throw TypeError, connected)
  /\ call Clients_update 0 [Str "unique-key"; Null] connected = (Throw TypeError, connected).
Proof.
  split.
  - apply (null_options_throw Rooms_updateById 1 0 [Num 0; Null] connected); reflexivity.
  - apply (null_options_throw Clients_update 1 0 [Str "unique-key"; Null] connected);
      reflexivity.
Defined.

(** X4: [Clients.update] with a present key never rejects: it sends on
    [update_client] an object holding [uniqueClientKey], [token] only if
    the token given is truthy and [properties] only if the properties
    given are truthy, and no other key. *)
Theorem update_sends_only_present this cc lc w (k : Val) (o : list (string * Val)) :
  truthy k = true ->
  clients w !! this = Some cc ->
  lineclients w !! cc_client cc = Some lc ->
  let token := default Undefined (lookup_prop "token" o) in
  let properties := default Undefined (lookup_prop "properties" o) in
  exists props,
    ClientController.update this [k; Obj o] w =
      (Normal (RFuture (cc_client cc) (length (lc_sent lc))),
       after_send (cc_client cc) "update_client" (Obj props) lc w)
    /\ lookup_prop "uniqueClientKey" props = Some k
    /\ lookup_prop "token" props = (if truthy token then Some token else None)
    /\ lookup_prop "properties" props =
         (if truthy properties then Some properties else None)
    /\ (forall key, In key (map fst props) ->
         In key ["uniqueClientKey"; "token"; "properties"])
    /\ ClientController.update this [k] w =
         (Normal (RFuture (cc_client cc) (length (lc_sent lc))),
          after_send (cc_client cc) "update_client" (Obj [("uniqueClientKey", k)]) lc w).
Proof.
  intros Hk Hcc Hlc token properties.
  unfold ClientController.update. unfold_body. rewrite Hk. simpl.
  fold token. fold properties.
  destruct (truthy token); destruct (truthy properties); simpl;
    (eexists; split; [apply clients_client_send_ok; eassumption|]);
    simpl; (repeat split; try reflexivity);
    try (apply clients_client_send_ok; assumption);
    intros key Hkey; simpl in *; tauto.
Qed.

Lemma update_sends_only_present_witness :
  exists props,
    ClientController.update 0 [Str "unique-key"; Obj [("token", Str ""); ("properties", Obj [])]]
      connected =
      (Normal (RFuture 0 0), after_send 0 "update_client" (Obj props) connectedClient connected)
    /\ lookup_prop "uniqueClientKey" props = Some (Str "unique-key")
    /\ lookup_prop "token" props = None
    /\ lookup_prop "properties" props = Some (Obj [])
    /\ (forall key, In key (map fst props) ->
         In key ["uniqueClientKey"; "token"; "properties"])
    /\ ClientController.update 0 [Str "unique-key"] connected =
         (Normal (RFuture 0 0),
          after_send 0 "update_client" (Obj [("uniqueClientKey", Str "unique-key")])
            connectedClient connected).
Proof.
  apply (update_sends_only_present 0 connectedClients connectedClient connected
           (Str "unique-key") [("token", Str ""); ("properties", Obj [])]); reflexivity.
Defined.




(** X6: requests are never merged or cached.  Two validated calls in a
    row on controllers of the same transport, equal or not, append two
    requests in call order and hand back the futures of two different
    requests. *)
Theorem calls_compose m1 this1 args1 m2 this2 args2 w c lc :
  is_placeholder m1 = false -> options_bind m1 args1 = true -> first_missing m1 args1 = None ->
  is_placeholder m2 = false -> options_bind m2 args2 = true -> first_missing m2 args2 = None ->
  transport_of m1 this1 w = Some c ->
  transport_of m2 this2 w = Some c ->
  lineclients w !! c = Some lc ->
  exists ev1 p1 ev2 p2 r1 r2 w1 w2,
    call m1 this1 args1 w = (Normal r1, w1)
    /\ call m2 this2 args2 w1 = (Normal r2, w2)
    /\ settles_as r1 = RFuture c (length (lc_sent lc))
    /\ settles_as r2 = RFuture c (S (length (lc_sent lc)))
    /\ lc_sent <$> lineclients w2 !! c = Some (lc_sent lc ++ [(ev1, p1); (ev2, p2)]).
Proof.
  intros Hp1 Hb1 Hf1 Hp2 Hb2 Hf2 Ht1 Ht2 Hlc.
  assert (Hlt : c < length (lineclients w)) by (eapply lookup_lt_Some; eassumption).
  destruct (valid_call m1 this1 args1 w c lc Hp1 Hb1 Hf1 Ht1 Hlc) as (ev1 & p1 & H1 & _).
  set (w1 := after_send c ev1 p1 lc w) in *.
  set (lc1 := LineClient.record_send ev1 p1 lc).
  assert (Hlc1 : lineclients w1 !! c = Some lc1)
    by (unfold w1, after_send, set_lineclients; simpl; apply list_lookup_insert_eq; exact Hlt).
  assert (Ht2' : transport_of m2 this2 w1 = Some c) by exact Ht2.
  destruct (valid_call m2 this2 args2 w1 c lc1 Hp2 Hb2 Hf2 Ht2' Hlc1) as (ev2 & p2 & H2 & _).
  exists ev1, p1, ev2, p2. do 4 eexists.
  split; [exact H1|]. split; [exact H2|].
  split; [destruct m1; reflexivity|].
  split.
  - assert (Hlen : length (lc_sent lc1) = S (length (lc_sent lc)))
      by (unfold lc1; simpl; rewrite length_app; simpl; lia).
    rewrite Hlen. destruct m2; reflexivity.
  - unfold after_send, set_lineclients; simpl.
    rewrite list_lookup_insert_eq by (rewrite length_insert; exact Hlt).
    simpl. rewrite <- app_assoc. reflexivity.
Qed.

Lemma calls_compose_witness :
  exists ev1 p1 ev2 p2 r1 r2 w1 w2,
    call Rooms_findAll 0 [] connected = (Normal r1, w1)
    /\ call Rooms_findAll 0 [] w1 = (Normal r2, w2)
    /\ settles_as r1 = RFuture 0 0
    /\ settles_as r2 = RFuture 0 1
    /\ lc_sent <$> lineclients w2 !! 0 = Some ([] ++ [(ev1, p1); (ev2, p2)]).
Proof.
  apply (calls_compose Rooms_findAll 0 [] Rooms_findAll 0 [] connected 0 connectedClient);
    reflexivity.
Defined.

(** ** Connecting and disconnecting *)

Lemma new_is_empty args w0 :
  SocketKit.new args = Normal w0 ->
  exists token accountId endpoint,
    w0 = mkWorld (mkSocketKit token accountId endpoint None false None None [])
           [] [] [] [] [] [].
Proof.
  unfold SocketKit.new. intros Hnew.
  destruct (get _ "token"); [|discriminate].
  destruct (get _ "accountId"); [|discriminate].
  destruct (get _ "endpoint"); [|discriminate].
  injection Hnew as <-. eauto.
Qed.

Lemma run_invariant (P : World -> Prop) E :
  (forall a w, P w -> P (step E a w)) ->
  forall trace w, P w -> P (run E trace w).
Proof.
  intros Hstep trace. induction trace as [|a trace IH]; intros w Hw; [exact Hw|].
  change (run E (a :: trace) w) with (run E trace (step E a w)).
  apply IH, Hstep, Hw.
Qed.

Lemma disconnect_cases w :
  SocketKit.disconnect w = (Normal RUndefined, w)
  \/ SocketKit.disconnect w = (Throw TypeError, w)
  \/ exists c lc,
       sk_client (sk w) = Some c /\ lineclients w !! c = Some lc
       /\ SocketKit.disconnect w = (Normal (RDisconnect c), after_disconnect c lc w).
Proof.
  unfold SocketKit.disconnect.
  destruct (sk_isConnected (sk w)); [|left; reflexivity].
  unfold bind, SocketKit.this_client, LineClient.disconnect, bind, LineClient.update, ret.
  destruct (sk_client (sk w)) as [c|]; simpl; [|right; left; reflexivity].
  destruct (lineclients w !! c) as [lc|] eqn:Hlc; simpl; [|right; left; reflexivity].
  right; right. exists c, lc. repeat split. exact Hlc.
Qed.

(** Handlers change nothing but the connection flag and the logs of
    emissions. *)
Lemma run_handler_frame h args w :
  let w' := snd (run_handler h args w) in
  lineclients w' = lineclients w /\ rooms w' = rooms w /\ clients w' = clients w
  /\ sk_client (sk w') = sk_client (sk w) /\ sk_Rooms (sk w') = sk_Rooms (sk w)
  /\ sk_Clients (sk w') = sk_Clients (sk w)
  /\ sk_listeners (sk w') = sk_listeners (sk w).
Proof.
  destruct h; simpl; try (repeat split; reflexivity).
  unfold RoomsController.forward, bind, lift.
  destruct (get (arg 0 args) "payload"); simpl; repeat split; reflexivity.
Qed.

Lemma run_handlers_frame hs args w :
  let w' := snd (run_handlers hs args w) in
  lineclients w' = lineclients w /\ rooms w' = rooms w /\ clients w' = clients w
  /\ sk_client (sk w') = sk_client (sk w) /\ sk_Rooms (sk w') = sk_Rooms (sk w)
  /\ sk_Clients (sk w') = sk_Clients (sk w)
  /\ sk_listeners (sk w') = sk_listeners (sk w).
Proof.
  revert w. induction hs as [|h hs IH]; intros w; simpl; [repeat split; reflexivity|].
  pose proof (run_handler_frame h args w) as Hh. simpl in Hh.
  unfold bind. destruct (run_handler h args w) as [[[]|e] w1]; simpl in *; [|exact Hh].
  specialize (IH w1). simpl in IH.
  destruct Hh as (A1 & A2 & A3 & A4 & A5 & A6 & A7).
  destruct IH as (B1 & B2 & B3 & B4 & B5 & B6 & B7).
  repeat split; congruence.
Qed.

Lemma step_keeps_coherent E a w : coherent w -> coherent (step E a w).
Proof.
  intros Hw. destruct a; simpl.
  - destruct (sk_isConnected (sk w)) eqn:Hc.
    + unfold SocketKit.connect. rewrite Hc. exact Hw.
    + rewrite (connect_ok E w Hc). unfold coherent. simpl.
      rewrite length_app. simpl. split; [lia|].
      exists (length (rooms w)), (length (clients w)).
      rewrite !lookup_snoc. repeat split.
  - destruct (disconnect_cases w) as [H|[H|(c & lc & _ & _ & H)]]; rewrite H; try exact Hw.
    unfold coherent, after_disconnect in *. simpl.
    destruct (sk_client (sk w)) as [c0|].
    + rewrite length_insert. exact Hw.
    + destruct Hw as (Hnil & Hrest). rewrite Hnil. split; [reflexivity | exact Hrest].
  - destruct (call_cases m this args w)
      as [[H _]|(c & lc & ev & p & r & _ & _ & H & _)]; rewrite H; try exact Hw.
    unfold coherent, after_send in *. simpl.
    destruct (sk_client (sk w)) as [c0|].
    + rewrite length_insert. exact Hw.
    + destruct Hw as (Hnil & Hrest). rewrite Hnil. split; [reflexivity | exact Hrest].
  - destruct em; simpl; try exact Hw.
    + unfold coherent in *. simpl.
      destruct (sk_client (sk w)) as [c0|]; [|exact Hw].
      destruct Hw as (Hlt & r0 & k & HR & HK & Hr & Hk).
      split; [exact Hlt|]. exists r0, k. repeat split; try assumption.
      destruct (decide (r = r0)) as [->|Hne].
      * rewrite list_lookup_alter_eq. destruct (rooms w !! r0); simpl in *; assumption.
      * rewrite list_lookup_alter_ne by exact Hne. exact Hr.
    + unfold coherent in *. simpl.
      destruct (sk_client (sk w)) as [c0|]; [|exact Hw].
      destruct Hw as (Hlt & r0 & k & HR & HK & Hr & Hk).
      split; [exact Hlt|]. exists r0, k. repeat split; try assumption.
      destruct (decide (c = k)) as [->|Hne].
      * rewrite list_lookup_alter_eq. destruct (clients w !! k); simpl in *; assumption.
      * rewrite list_lookup_alter_ne by exact Hne. exact Hk.
  - assert (Hkeep : forall r0 c0, rc_client <$> rooms w !! r0 = Some c0 ->
                      rc_client <$> (rooms w ++ [mkRooms c []]) !! r0 = Some c0).
    { intros r0 c0 Hr. rewrite lookup_app_l; [exact Hr|].
      destruct (rooms w !! r0) eqn:Hl; [|discriminate].
      eapply lookup_lt_Some; eassumption. }
    destruct (lineclients w !! c) as [lc|] eqn:Hlc.
    + rewrite (new_rooms_ok c lc w Hlc). unfold coherent in *. simpl.
      destruct (sk_client (sk w)) as [c0|].
      * destruct Hw as (Hlt & r0 & k & HR & HK & Hr & Hk).
        rewrite length_insert. split; [exact Hlt|]. exists r0, k.
        repeat split; try assumption. apply Hkeep, Hr.
      * destruct Hw as (Hnil & _). rewrite Hnil in Hlc. discriminate.
    + rewrite (new_rooms_unwired c w Hlc). unfold coherent in *. simpl.
      destruct (sk_client (sk w)) as [c0|]; [|exact Hw].
      destruct Hw as (Hlt & r0 & k & HR & HK & Hr & Hk).
      split; [exact Hlt|]. exists r0, k. repeat split; try assumption. apply Hkeep, Hr.
  - unfold coherent in *. simpl.
    destruct (sk_client (sk w)) as [c0|]; [|exact Hw].
    destruct Hw as (Hlt & r0 & k & HR & HK & Hr & Hk).
    split; [exact Hlt|]. exists r0, k. repeat split; try assumption.
    rewrite lookup_app_l; [exact Hk|].
    destruct (clients w !! k) eqn:Hl; [|discriminate].
    eapply lookup_lt_Some; eassumption.
  - unfold fire. destruct (lineclients w !! c) as [lc|] eqn:Hlc; [|exact Hw].
    pose proof (run_handlers_frame (LineClient.subscribed name (lc_handlers lc)) args w)
      as (A1 & A2 & A3 & A4 & A5 & A6 & _).
    unfold coherent in *. rewrite A1, A2, A3, A4, A5, A6.
    destruct (sk_client (sk w)) as [c0|]; [exact Hw|].
    destruct Hw as (Hnil & _). rewrite Hnil in Hlc. discriminate.
Qed.

Lemma run_coherent E args w0 trace :
  SocketKit.new args = Normal w0 -> coherent (run E trace w0).
Proof.
  intros Hnew. apply run_invariant; [apply step_keeps_coherent|].
  destruct (new_is_empty args w0 Hnew) as (t & a & e & ->).
  unfold coherent. simpl. repeat split.
Qed.

(** X7: [connect] on a SocketKit whose flag is down, whatever else the
    store holds: it returns [undefined] and builds one new transport from
    the endpoint and a handshake payload [{accountId, token}], wires it,
    asks it to connect once, and makes it the transport of [getClient] and
    of a new Rooms and a new Clients controller, both without listeners.
    The flag stays down, nothing is emitted, and the transports and
    controllers built before are left as they were. *)
Theorem connect_builds_shared_transport E w :
  sk_isConnected (sk w) = false ->
  exists w',
    SocketKit.connect E w = (Normal RUndefined, w')
    /\ SocketKit.getClient w' = (Normal (Some (length (lineclients w))), w')
    /\ sk_Rooms (sk w') = Some (length (rooms w))
    /\ sk_Clients (sk w') = Some (length (clients w))
    /\ lineclients w' = lineclients w ++ [handshake_client E (sk w) (length (rooms w))]
    /\ rooms w' = rooms w ++ [mkRooms (length (lineclients w)) []]
    /\ clients w' = clients w ++ [mkClients (length (lineclients w)) []]
    /\ (forall m, transport_of m (if is_rooms m then length (rooms w) else length (clients w)) w'
                 = Some (length (lineclients w)))
    /\ sk_isConnected (sk w') = false
    /\ emitted w' = emitted w /\ delivered w' = delivered w /\ console w' = console w.
Proof.
  intros Hc. eexists. split; [apply connect_ok; exact Hc|].
  unfold SocketKit.getClient. simpl.
  repeat split; try reflexivity; try exact Hc.
  intros m. unfold transport_of. simpl.
  destruct (is_rooms m); rewrite lookup_snoc; reflexivity.
Qed.

Lemma connect_builds_shared_transport_witness :
  exists w',
    SocketKit.connect sampleEvent fresh = (Normal RUndefined, w')
    /\ SocketKit.getClient w' = (Normal (Some 0), w')
    /\ sk_Rooms (sk w') = Some 0
    /\ sk_Clients (sk w') = Some 0
    /\ lineclients w' = [handshake_client sampleEvent (sk fresh) 0]
    /\ rooms w' = [mkRooms 0 []]
    /\ clients w' = [mkClients 0 []]
    /\ (forall m, transport_of m (if is_rooms m then 0 else 0) w' = Some 0)
    /\ sk_isConnected (sk w') = false
    /\ emitted w' = [] /\ delivered w' = [] /\ console w' = [].
Proof.
  apply (connect_builds_shared_transport sampleEvent fresh). reflexivity.
Defined.

(** X8: [connect] called [n] times in a row.  With the flag up, no call
    builds anything: each only logs a warning.  With the flag down (no
    CONNECTED event has arrived in between), every call builds a further
    transport and asks it to connect, and none of the earlier ones is
    removed or told to disconnect. *)
Theorem connect_repeated E n w :
  (sk_isConnected (sk w) = true ->
     run E (replicate n Connect) w =
       set_console (fun l => l ++ replicate n "Client is already connected") w)
  /\ (sk_isConnected (sk w) = false ->
      exists new,
        lineclients (run E (replicate n Connect) w) = lineclients w ++ new
        /\ length new = n
        /\ Forall just_connecting new
        /\ sk_isConnected (sk (run E (replicate n Connect) w)) = false).
Proof.
  split.
  - revert w. induction n as [|n IH]; intros w Hc.
    + destruct w. unfold set_console. simpl. rewrite app_nil_r. reflexivity.
    + change (run E (replicate (S n) Connect) w)
        with (run E (replicate n Connect) (step E Connect w)).
      assert (Hstep : step E Connect w =
                      set_console (fun l => l ++ ["Client is already connected"]) w).
      { simpl. unfold SocketKit.connect. rewrite Hc. reflexivity. }
      rewrite Hstep. rewrite IH by exact Hc.
      unfold set_console. simpl. rewrite <- app_assoc. reflexivity.
  - revert w. induction n as [|n IH]; intros w Hc.
    + exists []. rewrite app_nil_r. repeat split; [constructor | exact Hc].
    + change (run E (replicate (S n) Connect) w)
        with (run E (replicate n Connect) (step E Connect w)).
      assert (Hstep : step E Connect w = snd (SocketKit.connect E w)) by reflexivity.
      rewrite Hstep, (connect_ok E w Hc). simpl.
      match goal with
      | |- context [run E _ ?w1] => destruct (IH w1 Hc) as (new & Hl & Hn & Hall & Hflag)
      end.
      simpl in Hl.
      eexists (_ :: new). rewrite Hl, <- app_assoc. simpl.
      split; [reflexivity|]. split; [rewrite Hn; reflexivity|].
      split; [|exact Hflag].
      constructor; [repeat split | exact Hall].
Qed.

Lemma connect_repeated_witness :
  run sampleEvent [Connect; Connect] connected =
    set_console (fun l => l ++ ["Client is already connected"; "Client is already connected"])
      connected
  /\ exists new,
       lineclients (run sampleEvent [Connect; Connect] fresh) = lineclients fresh ++ new
       /\ length new = 2
       /\ Forall just_connecting new
       /\ sk_isConnected (sk (run sampleEvent [Connect; Connect] fresh)) = false.
Proof.
  split.
  - apply (proj1 (connect_repeated sampleEvent 2 connected)). reflexivity.
  - apply (proj2 (connect_repeated sampleEvent 2 fresh)). reflexivity.
Defined.

(** X9: [disconnect] never throws on a SocketKit that was built with
    [new] and then used in any way.  With the flag down it does nothing
    and returns [undefined], even while a transport is connecting; with the
    flag up, [getClient] is a transport of the store, which is asked to
    disconnect once, and nothing else changes: the flag stays up until that
    transport fires DISCONNECTED. *)
Theorem disconnect_never_throws E args w0 trace :
  SocketKit.new args = Normal w0 ->
  let w := run E trace w0 in
  (sk_isConnected (sk w) = false -> SocketKit.disconnect w = (Normal RUndefined, w))
  /\ (sk_isConnected (sk w) = true ->
      exists c lc,
        SocketKit.getClient w = (Normal (Some c), w)
        /\ lineclients w !! c = Some lc
        /\ SocketKit.disconnect w = (Normal (RDisconnect c), after_disconnect c lc w)
        /\ sk (after_disconnect c lc w) = sk w).
Proof.
  intros Hnew w. pose proof (run_coherent E args w0 trace Hnew) as Hco. fold w in Hco.
  split.
  - intros Hc. unfold SocketKit.disconnect. rewrite Hc. reflexivity.
  - intros Hc. unfold coherent in Hco.
    destruct (sk_client (sk w)) as [c|] eqn:Hcl.
    + destruct Hco as (Hlt & _).
      destruct (lookup_lt_is_Some_2 _ _ Hlt) as (lc & Hlc).
      exists c, lc. unfold SocketKit.getClient. rewrite Hcl.
      split; [reflexivity|]. split; [exact Hlc|]. split; [|reflexivity].
      unfold SocketKit.disconnect. rewrite Hc.
      unfold bind, SocketKit.this_client, LineClient.disconnect, bind, LineClient.update, ret.
      rewrite Hcl. simpl. rewrite Hlc. reflexivity.
    + destruct Hco as (_ & Hfalse & _). congruence.
Qed.

Lemma disconnect_never_throws_witness :
  SocketKit.disconnect (run sampleEvent [Connect] fresh) =
    (Normal RUndefined, run sampleEvent [Connect] fresh)
  /\ exists c lc,
       SocketKit.getClient connected = (Normal (Some c), connected)
       /\ lineclients connected !! c = Some lc
       /\ SocketKit.disconnect connected = (Normal (RDisconnect c), after_disconnect c lc connected)
       /\ sk (after_disconnect c lc connected) = sk connected.
Proof.
  split.
  - apply (disconnect_never_throws sampleEvent
             [Obj [("token", Str "abc"); ("accountId", Num 1)]] fresh [Connect]);
      reflexivity.
  - apply (disconnect_never_throws sampleEvent
             [Obj [("token", Str "abc"); ("accountId", Num 1)]] fresh
             [Connect; Fire 0 "_connected" []]); reflexivity.
Defined.

(** X10: on a SocketKit built with [new] and then used in any way,
    [Rooms] and [Clients] always talk over the transport [getClient]
    returns.  While [getClient] is [null] neither controller is set; once
    it is a transport, both are set, and every validated call through them
    appends its one request to the log of that very transport. *)
Theorem facades_follow_getClient E args w0 trace :
  SocketKit.new args = Normal w0 ->
  let w := run E trace w0 in
  (sk_client (sk w) = None ->
     sk_Rooms (sk w) = None /\ sk_Clients (sk w) = None /\ lineclients w = [])
  /\ (forall c, sk_client (sk w) = Some c ->
      exists r k lc,
        sk_Rooms (sk w) = Some r /\ sk_Clients (sk w) = Some k
        /\ lineclients w !! c = Some lc
        /\ forall m margs,
             is_placeholder m = false ->
             options_bind m margs = true ->
             first_missing m margs = None ->
             exists ev payload res,
               call m (if is_rooms m then r else k) margs w =
                 (Normal res, after_send c ev payload lc w)).
Proof.
  intros Hnew w. pose proof (run_coherent E args w0 trace Hnew) as Hco. fold w in Hco.
  unfold coherent in Hco. split.
  - intros Hcl. rewrite Hcl in Hco. tauto.
  - intros c Hcl. rewrite Hcl in Hco.
    destruct Hco as (Hlt & r & k & HR & HK & Hr & Hk).
    destruct (lookup_lt_is_Some_2 _ _ Hlt) as (lc & Hlc).
    exists r, k, lc. repeat split; try assumption.
    intros m margs Hp Hb Hf.
    assert (Ht : transport_of m (if is_rooms m then r else k) w = Some c).
    { unfold transport_of. destruct (is_rooms m); assumption. }
    destruct (valid_call m _ margs w c lc Hp Hb Hf Ht Hlc) as (ev & payload & Hcall & _).
    exists ev, payload. eexists. exact Hcall.
Qed.

Lemma facades_follow_getClient_witness :
  (sk_client (sk fresh) = None ->
     sk_Rooms (sk fresh) = None /\ sk_Clients (sk fresh) = None /\ lineclients fresh = [])
  /\ (forall c, sk_client (sk connected) = Some c ->
      exists r k lc,
        sk_Rooms (sk connected) = Some r /\ sk_Clients (sk connected) = Some k
        /\ lineclients connected !! c = Some lc
        /\ forall m margs,
             is_placeholder m = false ->
             options_bind m margs = true ->
             first_missing m margs = None ->
             exists ev payload res,
               call m (if is_rooms m then r else k) margs connected =
                 (Normal res, after_send c ev payload lc connected)).
Proof.
  split.
  - apply (facades_follow_getClient sampleEvent
             [Obj [("token", Str "abc"); ("accountId", Num 1)]] fresh []); reflexivity.
  - apply (facades_follow_getClient sampleEvent
             [Obj [("token", Str "abc"); ("accountId", Num 1)]] fresh
             [Connect; Fire 0 "_connected" []]); reflexivity.
Defined.

(** ** What is emitted *)

Lemma router_handlers_routed r : Forall routed_pair (router_handlers r).
Proof.
  repeat constructor; (exists r; split; [reflexivity | simpl; tauto]).
Qed.

Lemma step_keeps_well_wired E a w :
  Forall (well_wired E) (wiring w) -> Forall (well_wired E) (wiring (step E a w)).
Proof.
  intros Hw. destruct a; simpl.
  - destruct (sk_isConnected (sk w)) eqn:Hc.
    + unfold SocketKit.connect. rewrite Hc. exact Hw.
    + rewrite (connect_ok E w Hc). unfold wiring; simpl.
      rewrite fmap_app. apply Forall_app. split; [exact Hw|].
      repeat constructor. exists (router_handlers (length (rooms w))).
      split; [reflexivity | apply router_handlers_routed].
  - destruct (disconnect_frame w) as [_ ->]. exact Hw.
  - destruct (call_frame m this args w) as [_ ->]. exact Hw.
  - destruct em; exact Hw.
  - destruct (lineclients w !! c) as [lc|] eqn:Hlc.
    + rewrite (new_rooms_ok c lc w Hlc). unfold wiring; simpl.
      rewrite list_fmap_insert. simpl. apply Forall_insert; [exact Hw|].
      assert (Hin : well_wired E (lc_handlers lc)).
      { eapply (proj1 (Forall_lookup _ _) Hw c).
        unfold wiring. rewrite list_lookup_fmap, Hlc. reflexivity. }
      destruct Hin as (rest & -> & Hfw).
      exists (rest ++ router_handlers (length (rooms w))).
      split; [rewrite <- app_assoc; reflexivity|].
      apply Forall_app. split; [exact Hfw | apply router_handlers_routed].
    + rewrite (new_rooms_unwired c w Hlc). exact Hw.
  - exact Hw.
  - unfold fire. destruct (lineclients w !! c) as [lc|]; [|exact Hw].
    unfold wiring. rewrite run_handlers_lineclients. exact Hw.
Qed.

Lemma run_well_wired E args w0 trace :
  SocketKit.new args = Normal w0 -> Forall (well_wired E) (wiring (run E trace w0)).
Proof.
  intros Hnew. apply run_invariant; [apply step_keeps_well_wired|].
  destruct (new_is_empty args w0 Hnew) as (t & a & e & ->). constructor.
Qed.

Lemma well_wired_lookup E w c lc :
  Forall (well_wired E) (wiring w) -> lineclients w !! c = Some lc ->
  well_wired E (lc_handlers lc).
Proof.
  intros Hw Hlc. eapply (proj1 (Forall_lookup _ _) Hw c).
  unfold wiring. rewrite list_lookup_fmap, Hlc. reflexivity.
Qed.

(** No handler is subscribed to a name no handler was registered under. *)
Lemma subscribed_none name hs :
  Forall (fun nh : string * Handler => fst nh <> name) hs ->
  LineClient.subscribed name hs = [].
Proof.
  unfold LineClient.subscribed. induction 1 as [|[k h] hs Hk _ IH]; [reflexivity|].
  simpl in *. destruct (String.eqb k name) eqn:Heq; [|exact IH].
  apply String.eqb_eq in Heq. contradiction.
Qed.

(** X11: an inbound event that is neither a lifecycle event of the
    transport nor one of the four routed room events is dropped: on a
    SocketKit built with [new] and then used in any way, firing it runs no
    handler and changes nothing.  The names [message_received],
    [client_updated], [set_typing] and [get_room_info] of the public
    [Events] table are such events. *)
Theorem unrouted_events_dropped E args w0 trace c name fargs :
  SocketKit.new args = Normal w0 ->
  ~ In name [LineClient.CONNECTED E; LineClient.DISCONNECTED E;
             LineClient.ERROR E; LineClient.CONNECTING_ERROR E] ->
  ~ In name routed_events ->
  fire c name fargs (run E trace w0) = (Normal tt, run E trace w0).
Proof.
  intros Hnew Hlife Hrouted. unfold fire.
  destruct (lineclients (run E trace w0) !! c) as [lc|] eqn:Hlc; [|reflexivity].
  destruct (well_wired_lookup E _ c lc (run_well_wired E args w0 trace Hnew) Hlc)
    as (rest & -> & Hrest).
  rewrite subscribed_none; [reflexivity|].
  apply Forall_app. split.
  - repeat constructor; simpl; intros Heq; apply Hlife; simpl; tauto.
  - eapply List.Forall_impl; [|exact Hrest].
    intros [k h] (r & _ & Hin). simpl in *. intros ->. contradiction.
Qed.

Lemma unrouted_events_dropped_witness :
  fire 0 "message_received" [Obj [("payload", Obj [("text", Str "hi")])]] connected =
    (Normal tt, connected).
Proof.
  apply (unrouted_events_dropped sampleEvent
           [Obj [("token", Str "abc"); ("accountId", Num 1)]] fresh
           [Connect; Fire 0 "_connected" []] 0 "message_received").
  - reflexivity.
  - simpl. intros H. repeat destruct H as [H|H]; try discriminate H. exact H.
  - simpl. intros H. repeat destruct H as [H|H]; try discriminate H. exact H.
Defined.

Lemma step_keeps_emitted E a w :
  match a with Fire _ _ _ => False | _ => True end ->
  emitted (step E a w) = emitted w.
Proof.
  destruct a; simpl; intros Ha; try contradiction.
  - destruct (sk_isConnected (sk w)) eqn:Hc.
    + unfold SocketKit.connect. rewrite Hc. reflexivity.
    + rewrite (connect_ok E w Hc). reflexivity.
  - destruct (disconnect_cases w) as [H|[H|(c & lc & _ & _ & H)]]; rewrite H; reflexivity.
  - destruct (call_cases m this args w)
      as [[H _]|(c & lc & ev & p & r & _ & _ & H & _)]; rewrite H; reflexivity.
  - destruct em; reflexivity.
  - destruct (lineclients w !! c) as [lc|] eqn:Hlc.
    + rewrite (new_rooms_ok c lc w Hlc). reflexivity.
    + rewrite (new_rooms_unwired c w Hlc). reflexivity.
  - reflexivity.
Qed.

Lemma run_handlers_emit_ok hs args w :
  Forall handler_ok hs ->
  Forall emission_ok (emitted w) ->
  Forall emission_ok (emitted (snd (run_handlers hs args w))).
Proof.
  intros Hhs. revert w. induction Hhs as [|h hs Hh _ IH]; intros w Hw; [exact Hw|].
  simpl. unfold bind.
  assert (Hstep : Forall emission_ok (emitted (snd (run_handler h args w)))).
  { destruct h; simpl;
      try (apply Forall_app; split; [exact Hw|];
           constructor; [simpl; tauto | constructor]).
    unfold RoomsController.forward, bind, lift.
    destruct (get (arg 0 args) "payload"); simpl; [|exact Hw].
    apply Forall_app; split; [exact Hw|].
    constructor; [|constructor]. split; [exact Hh | reflexivity]. }
  destruct (run_handler h args w) as [[[]|e] w1]; simpl in *; [apply IH|]; exact Hstep.
Qed.

Lemma well_wired_subscribed E name hs :
  well_wired E hs -> Forall handler_ok (LineClient.subscribed name hs).
Proof.
  intros (rest & -> & Hrest). rewrite subscribed_app. apply Forall_app. split.
  - unfold LineClient.subscribed, lifecycle_handlers. simpl.
    repeat match goal with
    | |- context [String.eqb ?a ?b] => destruct (String.eqb a b); simpl
    end; repeat constructor.
  - unfold LineClient.subscribed. induction Hrest as [|[k h] rest Hk _ IH]; [constructor|].
    simpl. destruct (String.eqb k name); simpl; [|exact IH].
    constructor; [|exact IH].
    destruct Hk as (r & Hh & Hin). simpl in *. subst h. exact Hin.
Qed.

(** X12: what this code ever emits.  On a SocketKit built with [new] and
    then used in any way, every emission made so far is either one of the
    SocketKit object under [connected], [disconnected], [error] or
    [connecting_error], or one of a Rooms controller under one of the four
    routed names with exactly one argument.  A Clients controller never
    emits, and no controller emits [message_received], [client_updated],
    [set_typing] or [get_room_info]. *)
Theorem only_known_events_emitted E args w0 trace :
  SocketKit.new args = Normal w0 ->
  Forall emission_ok (emitted (run E trace w0)).
Proof.
  intros Hnew.
  assert (Hboth : Forall (well_wired E) (wiring (run E trace w0))
                  /\ Forall emission_ok (emitted (run E trace w0))).
  { apply (run_invariant
             (fun w => Forall (well_wired E) (wiring w) /\ Forall emission_ok (emitted w))).
    - intros a w [Hw He]. split; [apply step_keeps_well_wired; exact Hw|].
      destruct a; try (rewrite step_keeps_emitted by exact I; exact He).
      simpl. unfold fire. destruct (lineclients w !! c) as [lc|] eqn:Hlc; [|exact He].
      apply run_handlers_emit_ok; [|exact He].
      apply (well_wired_subscribed E). eapply well_wired_lookup; eassumption.
    - destruct (new_is_empty args w0 Hnew) as (t & a & e & ->). split; constructor. }
  exact (proj2 Hboth).
Qed.

Lemma only_known_events_emitted_witness :
  Forall emission_ok
    (emitted (run sampleEvent
       [Connect; Fire 0 "_connected" [];
        Fire 0 "room_event" [Obj [("payload", Num 1)]];
        Fire 0 "message_received" [Obj [("payload", Num 2)]];
        Call Clients_getCurrent 0 []; Fire 0 "_error" [Str "boom"]] fresh)).
Proof.
  apply (only_known_events_emitted sampleEvent
           [Obj [("token", Str "abc"); ("accountId", Num 1)]] fresh). reflexivity.
Defined.

Lemma forwards_quiet_socketkit name rest args w :
  Forall (fun nh : string * Handler => is_forward (snd nh) = true) rest ->
  emissions_of EmSocketKit
    (emitted (snd (run_handlers (LineClient.subscribed name rest) args w))) =
    emissions_of EmSocketKit (emitted w)
  /\ deliveries_of EmSocketKit
       (delivered (snd (run_handlers (LineClient.subscribed name rest) args w))) =
       deliveries_of EmSocketKit (delivered w).
Proof.
  intros Hfw. revert w. induction Hfw as [|[k h] rest Hh _ IH]; intros w;
    [split; reflexivity|].
  unfold LineClient.subscribed in *. simpl.
  destruct (String.eqb k name); simpl; [|apply IH].
  destruct h; try discriminate. simpl.
  unfold bind, RoomsController.forward, lift.
  destruct (get (arg 0 args) "payload"); simpl; [|split; reflexivity].
  match goal with
  | |- context [run_handlers _ args ?w1] => destruct (IH w1) as [He Hd]
  end.
  rewrite He, Hd. simpl. split.
  - apply emissions_of_other. reflexivity.
  - apply deliveries_of_other. reflexivity.
Qed.

Lemma lifecycle_subscribed E :
  NoDup [LineClient.CONNECTED E; LineClient.DISCONNECTED E;
         LineClient.ERROR E; LineClient.CONNECTING_ERROR E] ->
  LineClient.subscribed (LineClient.CONNECTED E) (lifecycle_handlers E) = [OnConnected]
  /\ LineClient.subscribed (LineClient.DISCONNECTED E) (lifecycle_handlers E) =
       [OnDisconnected]
  /\ LineClient.subscribed (LineClient.ERROR E) (lifecycle_handlers E) = [OnError]
  /\ LineClient.subscribed (LineClient.CONNECTING_ERROR E) (lifecycle_handlers E) =
       [OnConnectingError].
Proof.
  intros Hnd.
  assert (Hne : forall a b : string, a <> b -> String.eqb a b = false)
    by (intros a b; apply String.eqb_neq).
  pose proof (NoDup_cons_1_1 _ _ Hnd) as H1. apply NoDup_cons_1_2 in Hnd.
  pose proof (NoDup_cons_1_1 _ _ Hnd) as H2. apply NoDup_cons_1_2 in Hnd.
  pose proof (NoDup_cons_1_1 _ _ Hnd) as H3.
  apply not_elem_of_cons in H1 as [A1 H1]. apply not_elem_of_cons in H1 as [A2 H1].
  apply not_elem_of_cons in H1 as [A3 _].
  apply not_elem_of_cons in H2 as [B1 H2]. apply not_elem_of_cons in H2 as [B2 _].
  apply not_elem_of_cons in H3 as [C1 _].
  unfold LineClient.subscribed, lifecycle_handlers. simpl.
  rewrite !String.eqb_refl.
  rewrite !Hne by congruence.
  repeat split.
Qed.

Lemma well_wired_is_wired E hs : well_wired E hs -> wired E hs.
Proof.
  intros (rest & -> & Hrest). exists rest. split; [reflexivity|].
  eapply List.Forall_impl; [|exact Hrest].
  intros [k h] (r & Hh & _). simpl in *. rewrite Hh. reflexivity.
Qed.

Lemma fire_reemits E c lc name h fargs w public payload :
  lineclients w !! c = Some lc ->
  wired E (lc_handlers lc) ->
  LineClient.subscribed name (lifecycle_handlers E) = [h] ->
  (exists w1,
     run_handler h fargs w = (Normal tt, w1)
     /\ emitted w1 = emitted w ++ [(EmSocketKit, public, payload)]
     /\ delivered w1 =
          delivered w ++
          map (fun l : nat => (EmSocketKit, l, public, payload))
            (EventEmitterExtra.targets public (sk_listeners (sk w)))) ->
  reemits c name fargs w public payload.
Proof.
  intros Hlc (rest & Hhs & Hfw) Hsub (w1 & Hrun & He & Hd).
  unfold reemits, fire. rewrite Hlc, Hhs, subscribed_app, Hsub, run_handlers_app.
  simpl. unfold bind. rewrite Hrun. simpl.
  destruct (forwards_quiet_socketkit name rest fargs w1 Hfw) as [He' Hd'].
  rewrite He', Hd', He, Hd. split.
  - apply emissions_of_same.
  - apply deliveries_of_same.
Qed.

(** X13: the four lifecycle events of a transport are re-emitted by the
    SocketKit object, once each, to its listeners: CONNECTED as
    [connected] without argument, DISCONNECTED (code, reason) as
    [disconnected] with the one object [{code, reason}], ERROR and
    CONNECTING_ERROR as [error] and [connecting_error] with the error
    passed on as it came.  This holds for every transport a SocketKit
    built with [new] has created, the ones it no longer uses included. *)
Theorem lifecycle_events_reemitted E args w0 trace c lc fargs :
  NoDup [LineClient.CONNECTED E; LineClient.DISCONNECTED E;
         LineClient.ERROR E; LineClient.CONNECTING_ERROR E] ->
  SocketKit.new args = Normal w0 ->
  lineclients (run E trace w0) !! c = Some lc ->
  reemits c (LineClient.CONNECTED E) fargs (run E trace w0) "connected" []
  /\ reemits c (LineClient.DISCONNECTED E) fargs (run E trace w0) "disconnected"
       [Obj [("code", arg 0 fargs); ("reason", arg 1 fargs)]]
  /\ reemits c (LineClient.ERROR E) fargs (run E trace w0) "error" [arg 0 fargs]
  /\ reemits c (LineClient.CONNECTING_ERROR E) fargs (run E trace w0) "connecting_error"
       [arg 0 fargs].
Proof.
  intros Hnd Hnew Hlc.
  assert (Hw : wired E (lc_handlers lc)).
  { apply well_wired_is_wired.
    eapply well_wired_lookup; [apply (run_well_wired E args w0 trace Hnew) | exact Hlc]. }
  destruct (lifecycle_subscribed E Hnd) as (S1 & S2 & S3 & S4).
  split; [|split; [|split]].
  - eapply fire_reemits; [exact Hlc | exact Hw | exact S1 |].
    eexists. split; [reflexivity|]. split; reflexivity.
  - eapply fire_reemits; [exact Hlc | exact Hw | exact S2 |].
    eexists. split; [reflexivity|]. split; reflexivity.
  - eapply fire_reemits; [exact Hlc | exact Hw | exact S3 |].
    eexists. split; [reflexivity|]. split; reflexivity.
  - eapply fire_reemits; [exact Hlc | exact Hw | exact S4 |].
    eexists. split; [reflexivity|]. split; reflexivity.
Qed.

Lemma lifecycle_events_reemitted_witness :
  reemits 0 "_disconnected" [Num 1000; Str "bye"]
    (run sampleEvent [Listen EmSocketKit "disconnected" 3; Connect] fresh)
    "disconnected" [Obj [("code", Num 1000); ("reason", Str "bye")]]
  /\ EventEmitterExtra.targets "disconnected"
       (sk_listeners (sk (run sampleEvent [Listen EmSocketKit "disconnected" 3; Connect]
                            fresh))) = [3].
Proof.
  split; [|reflexivity].
  apply (lifecycle_events_reemitted sampleEvent
           [Obj [("token", Str "abc"); ("accountId", Num 1)]] fresh
           [Listen EmSocketKit "disconnected" 3; Connect] 0
           (handshake_client sampleEvent (sk fresh) 0) [Num 1000; Str "bye"]).
  - apply (bool_decide_unpack _). vm_compute. exact I.
  - reflexivity.
  - reflexivity.
Defined.

(** X14: the constructor validates nothing and [connect] passes its
    options on.  For any options other than [null] (an object, a
    primitive, or none at all) [new SocketKit(options)] succeeds, and the
    first [connect] builds the one transport of the store from the
    endpoint given, or [wss://ws.socketkit.com] when none is, with the
    handshake payload [{accountId, token}] holding the two options as they
    were passed, [undefined] if they were not. *)
Theorem constructor_options_reach_transport E (options : list Val) :
  arg 0 options <> Null ->
  exists w0 w1,
    SocketKit.new options = Normal w0
    /\ SocketKit.connect E w0 = (Normal RUndefined, w1)
    /\ lineclients w1 =
         [mkLineClient
            (or_default (field_value options (InOptions 0 "endpoint"))
               (Str "wss://ws.socketkit.com"))
            (Obj [("handshake",
                   Obj [("payload",
                         Obj [("accountId", field_value options (InOptions 0 "accountId"));
                              ("token", field_value options (InOptions 0 "token"))])])])
            (lifecycle_handlers E ++ router_handlers 0) [] 1 0]
    /\ sk_isConnected (sk w1) = false.
Proof.
  intros Hnull. unfold SocketKit.new, field_value.
  set (o := arg 0 options) in *. clearbody o.
  destruct o; try congruence; simpl;
    (eexists; eexists; split; [reflexivity|];
     split; [apply connect_ok; reflexivity|]; split; reflexivity).
Qed.

Lemma constructor_options_reach_transport_witness :
  exists w0 w1,
    SocketKit.new [] = Normal w0
    /\ SocketKit.connect sampleEvent w0 = (Normal RUndefined, w1)
    /\ lineclients w1 =
         [mkLineClient (Str "wss://ws.socketkit.com")
            (Obj [("handshake",
                   Obj [("payload", Obj [("accountId", Undefined); ("token", Undefined)])])])
            (lifecycle_handlers sampleEvent ++ router_handlers 0) [] 1 0]
    /\ sk_isConnected (sk w1) = false.
Proof.
  apply (constructor_options_reach_transport sampleEvent []). discriminate.
Defined.

(** ** The Rooms event router, for as long as the program runs *)

Lemma run_handlers_foreign_quiet r name hs env more w :
  foreign r hs ->
  exists w', run_handlers (LineClient.subscribed name hs) (Obj env :: more) w = (Normal tt, w')
             /\ quiet r w w'.
Proof.
  intros Hf. revert w. induction Hf as [|[k h] hs Hh _ IH]; intros w; simpl.
  - eexists; split; [reflexivity|]. repeat split.
  - unfold LineClient.subscribed in *. simpl.
    destruct (String.eqb k name); simpl; [|apply IH].
    destruct (run_handler_quiet r h env more w) as (w1 & Hrun & Hq1).
    { destruct h; try exact I. simpl in Hh. apply Nat.eqb_neq. exact Hh. }
    destruct (IH w1) as (w2 & Hrun2 & Hq2).
    exists w2. split.
    + unfold bind. rewrite Hrun. exact Hrun2.
    + eapply quiet_trans; eassumption.
Qed.

(** The router handlers of [r] subscribed to a routed name are the one
    that re-emits under that name. *)
Lemma router_handlers_run r n p rest more w :
  In n routed_events ->
  run_handlers (LineClient.subscribed n (router_handlers r))
    (Obj (("payload", p) :: rest) :: more) w =
    (Normal tt, snd (EventEmitterExtra.emit (EmRooms r) n [p] w)).
Proof.
  simpl. intros [<-|[<-|[<-|[<-|[]]]]]; reflexivity.
Qed.

(** Wherever controller [r] is subscribed, a routed event is delivered. *)
Lemma routes_delivers r c n p rest more w :
  routes r c w -> In n routed_events -> delivers r c n p rest more w.
Proof.
  intros (_ & lc & hs1 & hs2 & Hlc & Hhs & F1 & F2) Hn.
  unfold delivers, fire. rewrite Hlc, Hhs, subscribed_app, run_handlers_app.
  destruct (run_handlers_foreign_quiet r n hs1 (("payload", p) :: rest) more w F1)
    as (w1 & Hrun1 & Hr1 & _ & He1 & Hd1).
  unfold bind at 1. rewrite Hrun1.
  rewrite subscribed_app, run_handlers_app.
  unfold bind at 1. rewrite (router_handlers_run r n p rest more w1 Hn).
  destruct (run_handlers_foreign_quiet r n hs2 (("payload", p) :: rest) more
              (snd (EventEmitterExtra.emit (EmRooms r) n [p] w1)) F2)
    as (w2 & Hrun2 & _ & _ & He2 & Hd2).
  exists w2. split; [exact Hrun2|].
  assert (Hls : EventEmitterExtra.listeners (EmRooms r) w =
                EventEmitterExtra.listeners (EmRooms r) w1)
    by (simpl; rewrite Hr1; reflexivity).
  rewrite He2, Hd2, Hls, <- He1, <- Hd1. simpl.
  split; [apply emissions_of_same | apply deliveries_of_same].
Qed.

Lemma routes_insert r c c' lc' lc'' w :
  lineclients w !! c' = Some lc' ->
  lc_handlers lc'' = lc_handlers lc' ->
  routes r c w ->
  routes r c (set_lineclients (fun l => <[c' := lc'']> l) w).
Proof.
  intros Hl Hh (Hlt & lc & hs1 & hs2 & Hlc & Hhs & F1 & F2).
  split; [exact Hlt|]. simpl.
  destruct (decide (c' = c)) as [->|Hne].
  - exists lc'', hs1, hs2.
    rewrite list_lookup_insert_eq by (eapply lookup_lt_Some; eassumption).
    split; [reflexivity|]. rewrite Hh.
    assert (lc' = lc) by congruence. subst lc'. auto.
  - exists lc, hs1, hs2. rewrite list_lookup_insert_ne by exact Hne. auto.
Qed.

Lemma router_handlers_foreign r r' : r' <> r -> foreign r (router_handlers r').
Proof. intros Hne. repeat constructor; exact Hne. Qed.

(** Nothing the program does removes a subscription of a router. *)
Lemma step_keeps_routes E a r c w : routes r c w -> routes r c (step E a w).
Proof.
  intros Hw. destruct a; simpl.
  - destruct (sk_isConnected (sk w)) eqn:Hc.
    + unfold SocketKit.connect. rewrite Hc. exact Hw.
    + rewrite (connect_ok E w Hc).
      destruct Hw as (Hlt & lc & hs1 & hs2 & Hlc & Hrest).
      split; [simpl; rewrite length_app; lia|].
      exists lc, hs1, hs2. simpl.
      rewrite lookup_app_l by (eapply lookup_lt_Some; eassumption).
      split; [exact Hlc | exact Hrest].
  - destruct (disconnect_cases w) as [H|[H|(c' & lc' & _ & Hl & H)]]; rewrite H;
      try exact Hw.
    apply (routes_insert r c c' lc'); [exact Hl | reflexivity | exact Hw].
  - destruct (call_cases m this args w)
      as [[H _]|(c' & lc' & ev & p & res & _ & Hl & H & _)]; rewrite H; try exact Hw.
    apply (routes_insert r c c' lc'); [exact Hl | reflexivity | exact Hw].
  - destruct em; simpl; try exact Hw.
    destruct Hw as (Hlt & Hrest). split; [|exact Hrest].
    simpl. rewrite length_alter. exact Hlt.
  - destruct Hw as (Hlt & lc & hs1 & hs2 & Hlc & Hhs & F1 & F2).
    destruct (lineclients w !! c0) as [lc0|] eqn:Hlc0.
    + rewrite (new_rooms_ok c0 lc0 w Hlc0).
      split; [simpl; rewrite length_app; lia|]. simpl.
      destruct (decide (c0 = c)) as [->|Hne].
      * assert (lc0 = lc) by congruence. subst lc0.
        eexists. exists hs1, (hs2 ++ router_handlers (length (rooms w))).
        rewrite list_lookup_insert_eq by (eapply lookup_lt_Some; eassumption).
        split; [reflexivity|]. simpl. rewrite Hhs, <- !app_assoc.
        split; [reflexivity|]. split; [exact F1|].
        apply Forall_app. split; [exact F2|]. apply router_handlers_foreign. lia.
      * exists lc, hs1, hs2. rewrite list_lookup_insert_ne by exact Hne. auto.
    + rewrite (new_rooms_unwired c0 w Hlc0).
      split; [simpl; rewrite length_app; lia|].
      exists lc, hs1, hs2. auto.
  - exact Hw.
  - unfold fire. destruct (lineclients w !! c0) as [lc0|]; [|exact Hw].
    pose proof (run_handlers_frame (LineClient.subscribed name (lc_handlers lc0)) args w)
      as (A1 & A2 & _).
    unfold routes. rewrite A1, A2. exact Hw.
Qed.

Lemma handlers_within_mono n m hs :
  n <= m -> handlers_within n hs = true -> handlers_within m hs = true.
Proof.
  intros Hle. unfold handlers_within. induction hs as [|[k h] hs IH]; [reflexivity|].
  simpl. rewrite !andb_true_iff. intros [Hh Hrest]. split; [|apply IH; exact Hrest].
  destruct h; try reflexivity. apply Nat.ltb_lt in Hh. apply Nat.ltb_lt. lia.
Qed.

Lemma handlers_within_app n hs1 hs2 :
  handlers_within n hs1 = true -> handlers_within n hs2 = true ->
  handlers_within n (hs1 ++ hs2) = true.
Proof.
  unfold handlers_within. intros H1 H2. rewrite forallb_app, H1, H2. reflexivity.
Qed.

Lemma router_handlers_within r n : r < n -> handlers_within n (router_handlers r) = true.
Proof.
  intros Hlt. unfold handlers_within. simpl.
  assert (H : (r <? n) = true) by (apply Nat.ltb_lt; exact Hlt).
  rewrite H. reflexivity.
Qed.

Lemma bounded_grow (w w' : World) :
  length (rooms w) <= length (rooms w') ->
  Forall (fun hs => handlers_within (length (rooms w)) hs = true) (wiring w') ->
  bounded w'.
Proof.
  intros Hle Hw. unfold bounded. eapply List.Forall_impl; [|exact Hw].
  intros hs. apply handlers_within_mono. exact Hle.
Qed.

Lemma step_keeps_bounded E a w : bounded w -> bounded (step E a w).
Proof.
  intros Hw. destruct a; simpl.
  - destruct (sk_isConnected (sk w)) eqn:Hc.
    + unfold SocketKit.connect. rewrite Hc. exact Hw.
    + rewrite (connect_ok E w Hc). unfold bounded, wiring. simpl.
      rewrite length_app, fmap_app. simpl. apply Forall_app. split.
      * eapply List.Forall_impl; [|exact Hw].
        intros hs. apply handlers_within_mono. lia.
      * repeat constructor.
        apply (handlers_within_app _ (lifecycle_handlers E)
                 (router_handlers (length (rooms w)))); [reflexivity|].
        apply router_handlers_within. lia.
  - unfold bounded.
    destruct (disconnect_frame w) as [_ ->].
    destruct (disconnect_cases w) as [H|[H|(c' & lc' & _ & _ & H)]]; rewrite H; exact Hw.
  - unfold bounded.
    destruct (call_frame m this args w) as [_ ->].
    destruct (call_cases m this args w)
      as [[H _]|(c' & lc' & ev & p & res & _ & _ & H & _)]; rewrite H; exact Hw.
  - destruct em; simpl; try exact Hw.
    unfold bounded, wiring. simpl. rewrite length_alter. exact Hw.
  - destruct (lineclients w !! c) as [lc|] eqn:Hlc.
    + rewrite (new_rooms_ok c lc w Hlc). unfold bounded, wiring. simpl.
      rewrite length_app, list_fmap_insert. simpl. apply Forall_insert.
      * eapply List.Forall_impl; [|exact Hw].
        intros hs. apply handlers_within_mono. lia.
      * apply handlers_within_app.
        -- eapply handlers_within_mono; [|eapply (proj1 (Forall_lookup _ _) Hw c)].
           ++ lia.
           ++ unfold wiring. rewrite list_lookup_fmap, Hlc. reflexivity.
        -- apply router_handlers_within. lia.
    + rewrite (new_rooms_unwired c w Hlc). unfold bounded, wiring. simpl.
      rewrite length_app. eapply List.Forall_impl; [|exact Hw].
      intros hs. apply handlers_within_mono. lia.
  - exact Hw.
  - unfold fire. destruct (lineclients w !! c) as [lc|]; [|exact Hw].
    pose proof (run_handlers_frame (LineClient.subscribed name (lc_handlers lc)) args w)
      as (A1 & A2 & _).
    unfold bounded, wiring. rewrite A1, A2. exact Hw.
Qed.

Lemma run_bounded E args w0 trace :
  SocketKit.new args = Normal w0 -> bounded (run E trace w0).
Proof.
  intros Hnew. apply run_invariant; [apply step_keeps_bounded|].
  destruct (new_is_empty args w0 Hnew) as (t & a & e & ->). constructor.
Qed.

Lemma within_foreign r hs : handlers_within r hs = true -> foreign r hs.
Proof.
  unfold handlers_within, foreign. induction hs as [|[k h] hs IH]; [constructor|].
  simpl. rewrite andb_true_iff. intros [Hh Hrest]. constructor; [|apply IH; exact Hrest].
  destruct h; try exact I. simpl in *. apply Nat.ltb_lt in Hh. lia.
Qed.

(** Constructing a controller subscribes it. *)
Lemma new_rooms_routes c lc w :
  bounded w -> lineclients w !! c = Some lc ->
  routes (length (rooms w)) c (snd (RoomsController.new c w)).
Proof.
  intros Hb Hlc. rewrite (new_rooms_ok c lc w Hlc).
  split; [simpl; rewrite length_app; simpl; lia|].
  eexists. exists (lc_handlers lc), []. simpl.
  rewrite list_lookup_insert_eq by (eapply lookup_lt_Some; eassumption).
  split; [reflexivity|]. simpl.
  split; [reflexivity|]. split; [|constructor].
  apply within_foreign. eapply (proj1 (Forall_lookup _ _) Hb c).
  unfold wiring. rewrite list_lookup_fmap, Hlc. reflexivity.
Qed.

(** [connect] subscribes the Rooms controller it builds. *)
Lemma connect_routes E w :
  sk_isConnected (sk w) = false ->
  routes (length (rooms w)) (length (lineclients w)) (snd (SocketKit.connect E w)).
Proof.
  intros Hc. rewrite (connect_ok E w Hc).
  split; [simpl; rewrite length_app; simpl; lia|].
  eexists. exists (lifecycle_handlers E), []. simpl.
  rewrite lookup_snoc. split; [reflexivity|]. simpl.
  split; [reflexivity|]. split; repeat constructor.
Qed.

(** C5: the Rooms router, at every delivery.  Take a SocketKit built with
    [new] and used in any way, and a Rooms controller constructed then,
    either by [new RoomsController(client)] on a transport of the store or
    by [connect] (which makes it [Rooms]).  Construction subscribes the
    controller, without listeners, to the four routed events.  From then
    on, whatever happens in between (earlier deliveries of the same event,
    subscriptions, calls, reconnections), each delivery of a routed event
    with envelope [{payload: p}] on that transport fails nowhere and makes
    the controller emit exactly once, under the same name, with [p] itself
    and not the envelope; every listener then subscribed to that name is
    called once with [p], and with no listener nobody is called. *)
Theorem router_unwraps_payload E args w0 before after n (p : Val) rest more :
  SocketKit.new args = Normal w0 ->
  In n routed_events ->
  let w := run E before w0 in
  let r := length (rooms w) in
  (forall c lc,
     lineclients w !! c = Some lc ->
     fst (RoomsController.new c w) = Normal r
     /\ EventEmitterExtra.listeners (EmRooms r) (snd (RoomsController.new c w)) = []
     /\ delivers r c n p rest more (run E after (snd (RoomsController.new c w))))
  /\ (sk_isConnected (sk w) = false ->
      sk_Rooms (sk (snd (SocketKit.connect E w))) = Some r
      /\ EventEmitterExtra.listeners (EmRooms r) (snd (SocketKit.connect E w)) = []
      /\ delivers r (length (lineclients w)) n p rest more
           (run E after (snd (SocketKit.connect E w)))).
Proof.
  intros Hnew Hn w r. split.
  - intros c lc Hlc.
    pose proof (new_rooms_routes c lc w (run_bounded E args w0 before Hnew) Hlc) as Hroutes.
    fold r in Hroutes.
    split; [|split].
    + rewrite (new_rooms_ok c lc w Hlc). reflexivity.
    + rewrite (new_rooms_ok c lc w Hlc). simpl. unfold r.
      rewrite lookup_snoc. reflexivity.
    + apply routes_delivers; [|exact Hn].
      apply (run_invariant (routes r c));
        [intros a v; apply step_keeps_routes | exact Hroutes].
  - intros Hc.
    pose proof (connect_routes E w Hc) as Hroutes. fold r in Hroutes.
    split; [|split].
    + rewrite (connect_ok E w Hc). reflexivity.
    + rewrite (connect_ok E w Hc). simpl. unfold r.
      rewrite lookup_snoc. reflexivity.
    + apply routes_delivers; [|exact Hn].
      apply (run_invariant (routes r (length (lineclients w))));
        [intros a v; apply step_keeps_routes | exact Hroutes].
Qed.

Lemma router_unwraps_payload_witness :
  delivers 1 0 "new_room_created" (Obj [("id", Num 5)]) [] []
    (run sampleEvent
       [Listen (EmRooms 1) "new_room_created" 7;
        Fire 0 "new_room_created" [Obj [("payload", Obj [("id", Num 4)])]];
        Call Rooms_findAll 1 []]
       (snd (RoomsController.new 0 connected)))
  /\ delivers 0 0 "room_event" (Str "hello") [] []
       (run sampleEvent
          [Fire 0 "room_event" [Obj [("payload", Num 1)]]; Fire 0 "_connected" []]
          (snd (SocketKit.connect sampleEvent fresh))).
Proof.
  split.
  - destruct (router_unwraps_payload sampleEvent
                [Obj [("token", Str "abc"); ("accountId", Num 1)]] fresh
                [Connect; Fire 0 "_connected" []]
                [Listen (EmRooms 1) "new_room_created" 7;
                 Fire 0 "new_room_created" [Obj [("payload", Obj [("id", Num 4)])]];
                 Call Rooms_findAll 1 []]
                "new_room_created" (Obj [("id", Num 5)]) [] []) as [Hnew _];
      [reflexivity | simpl; tauto |].
    apply (Hnew 0 connectedClient). reflexivity.
  - destruct (router_unwraps_payload sampleEvent
                [Obj [("token", Str "abc"); ("accountId", Num 1)]] fresh
                []
                [Fire 0 "room_event" [Obj [("payload", Num 1)]]; Fire 0 "_connected" []]
                "room_event" (Str "hello") [] []) as [_ Hconnect];
      [reflexivity | simpl; tauto |].
    apply Hconnect. reflexivity.
Defined.

(** Two deliveries in a row both reach the listener subscribed before
    the first. *)
Example second_delivery_reaches_listener :
  deliveries_of (EmRooms 1)
    (delivered
       (run sampleEvent
          [Listen (EmRooms 1) "new_room_created" 7;
           Fire 0 "new_room_created" [Obj [("payload", Obj [("id", Num 4)])]];
           Fire 0 "new_room_created" [Obj [("payload", Obj [("id", Num 5)])]]]
          (snd (RoomsController.new 0 connected)))) =
    [(EmRooms 1, 7, "new_room_created", [Obj [("id", Num 4)]]);
     (EmRooms 1, 7, "new_room_created", [Obj [("id", Num 5)]])].
Proof. reflexivity. Qed.

(** ** The examples of the specification, run *)

Example new_SocketKit :
  SocketKit.new [Obj [("token", Str "abc"); ("accountId", Num 1)]] = Normal fresh.
Proof. reflexivity. Qed.

Example connected_store :
  sk connected =
    mkSocketKit (Str "abc") (Num 1) (Str "wss://ws.socketkit.com")
      (Some 0) true (Some 0) (Some 0) []
  /\ lineclients connected = [connectedClient]
  /\ rooms connected = [connectedRooms]
  /\ clients connected = [connectedClients]
  /\ emitted connected = [(EmSocketKit, "connected", [])].
Proof. repeat split; reflexivity. Qed.

Example sendMessageById_both_missing :
  call Rooms_sendMessageById 0 [Undefined; Obj []] connected =
    (Normal (RRejected "roomId is required"), connected).
Proof. reflexivity. Qed.

Example sendMessageById_text_missing :
  call Rooms_sendMessageById 0 [Num 1; Obj []] connected =
    (Normal (RRejected "text is required"), connected).
Proof. reflexivity. Qed.

Example create_without_title :
  call Rooms_create 0 [] connected = (Normal (RRejected "title is required"), connected).
Proof. reflexivity. Qed.

Example create_null_options :
  call Rooms_create 0 [Null] connected = (Throw TypeError, connected).
Proof. reflexivity. Qed.

Example clients_create_without_properties :
  call Clients_create 0 [Obj [("uniqueClientKey", Str "user-1"); ("token", Str "t")]]
    connected = (Normal (RRejected "properties is required"), connected).
Proof. reflexivity. Qed.

Example findAll_twice_sends_twice :
  lc_sent <$> lineclients
    (run sampleEvent [Call Rooms_findAll 0 []; Call Rooms_findAll 0 []] connected) !! 0 =
  Some [("get_client_rooms", Obj [("pagination", Obj [])]);
        ("get_client_rooms", Obj [("pagination", Obj [])])].
Proof. reflexivity. Qed.

Example update_omits_absent_fields :
  fst (call Clients_update 0 [Str "unique-key"; Obj [("token", Str "abc")]] connected) =
    Normal (RFuture 0 0)
  /\ lc_sent <$> lineclients
       (snd (call Clients_update 0 [Str "unique-key"; Obj [("token", Str "abc")]] connected))
       !! 0 =
     Some [("update_client", Obj [("uniqueClientKey", Str "unique-key"); ("token", Str "abc")])].
Proof. split; reflexivity. Qed.
